(** * ghupdate: a shallow embedding of [updates.go]

    The development follows the Go file top to bottom.  Library code that
    [updates.go] imports ([strings], [strconv], [golang.org/x/mod/semver])
    is transcribed in modules of its own; the operating system, the
    network and the clock are an explicit [World] the program reads, and
    the file system, [os.Args] and the diagnostic stream are the [State]
    it threads. *)

From Stdlib Require Import ZArith Ascii String DecimalString.
From Stdlib Require DecimalPos.
From stdpp Require Import base option list strings gmap.

Local Open Scope Z_scope.

(** ** Go's [strings] package, on byte strings *)

Module GoStrings.

(** [strings.HasPrefix(s, prefix)] *)
Definition HasPrefix (s prefix : string) : bool := String.prefix prefix s.

(** [strings.TrimPrefix(s, prefix)] *)
Definition TrimPrefix (s prefix : string) : string :=
  if HasPrefix s prefix
  then substring (String.length prefix) (String.length s - String.length prefix) s
  else s.

(** [strings.Contains(s, substr)] *)
Fixpoint Contains (s substr : string) : bool :=
  HasPrefix s substr ||
  match s with
  | EmptyString => false
  | String _ s' => Contains s' substr
  end.

(** [strings.Count(s, substr)] for a non-empty [substr]: the number of
    non-overlapping instances, scanned left to right.  [skip] is the number
    of bytes of the instance just matched that are still to be passed. *)
Fixpoint count_from (skip : nat) (s substr : string) : nat :=
  match s with
  | EmptyString => 0
  | String _ s' =>
      match skip with
      | S k => count_from k s' substr
      | O =>
          if HasPrefix s substr
          then S (count_from (String.length substr - 1) s' substr)
          else count_from 0 s' substr
      end
  end.

Definition Count (s substr : string) : nat := count_from 0 s substr.

(** [strings.ReplaceAll(s, old, new)]: every non-overlapping instance of
    [old], left to right, becomes [new]. *)
Fixpoint replace_from (skip : nat) (s old new : string) : string :=
  match s with
  | EmptyString => EmptyString
  | String c s' =>
      match skip with
      | S k => replace_from k s' old new
      | O =>
          if HasPrefix s old
          then new +:+ replace_from (String.length old - 1) s' old new
          else String c (replace_from 0 s' old new)
      end
  end.

(** With an empty [old] Go inserts [new] before every rune and at the end;
    the byte-wise version below agrees with it on ASCII text.  [updates.go]
    only ever passes the four non-empty placeholder tokens. *)
Fixpoint intersperse (s new : string) : string :=
  match s with
  | EmptyString => new
  | String c s' => new +:+ String c (intersperse s' new)
  end.

Definition ReplaceAll (s old new : string) : string :=
  match old with
  | EmptyString => intersperse s new
  | String _ _ => replace_from 0 s old new
  end.

End GoStrings.

(** ** Errors and formatted messages

    [fmt.Errorf(format, args...)] and [fmt.Fprintf(os.Stderr, format,
    args...)] are kept as the format string together with the argument list,
    unrendered: what a message carries is exactly its arguments. *)

Inductive errno : Type :=
  | ENOENT        (* no such file or directory *)
  | EACCES        (* permission denied *)
  | EPERM         (* operation not permitted *)
  | ESRCH         (* no such process; Go reports it as os.ErrProcessDone *)
  | ENOSPC        (* no space left on device *)
  | EIO           (* transport or read failure *)
  | EINVAL.       (* malformed input to a library call *)

Inductive value (E : Type) : Type :=
  | VStr (s : string)
  | VInt (z : Z)
  | VErr (e : E).
Arguments VStr {E} s.
Arguments VInt {E} z.
Arguments VErr {E} e.

#[warnings="-register-all"]
Inductive error : Type :=
  | Errno (e : errno)
  | Errorf (format : string) (args : list (value error)).

Definition message : Type := string * list (value error).

Inductive result (A : Type) : Type :=
  | Ok (a : A)
  | Err (e : error).
Arguments Ok {A} a.
Arguments Err {A} e.

(** ** Data types of [updates.go] *)

Record UpdateConfig : Type := {
  GitHubOwner : string;
  GitHubRepo : string;
  GitHubToken : string;
  CurrentVersion : string;
  DataDir : string;
  ExecutablePath : string;
  AssetPattern : string;
  OS : string;
  Arch : string
}.

Record UpdateInfo : Type := {
  ui_CurrentVersion : string;
  ui_LatestVersion : string;
  ui_DownloadURL : string;
  ui_AssetName : string;
  ui_ReleaseNotes : string
}.

Record GitHubAsset : Type := {
  Name : string;
  BrowserDownloadURL : string;
  Size : Z
}.

Record GitHubRelease : Type := {
  TagName : string;
  rel_Name : string;
  Body : string;
  Draft : bool;
  Prerelease : bool;
  Assets : list GitHubAsset
}.

(** ** Asset names *)

Import GoStrings.

(** [buildAssetName], updates.go lines 366-380. *)
Definition buildAssetName (pattern version os arch : string) : string :=
  let name := pattern in
  let name := ReplaceAll name "{version}" version in
  let name := ReplaceAll name "{os}" os in
  let name := ReplaceAll name "{arch}" arch in
  let ext := if String.eqb os "windows" then ".exe" else "" in
  let name := ReplaceAll name "{ext}" ext in
  name.

(** The [for ... range assets] loop of [findMatchingAsset]. *)
Fixpoint firstNamed (assets : list GitHubAsset) (expectedName : string)
  : option GitHubAsset :=
  match assets with
  | [] => None
  | asset :: rest =>
      if String.eqb (Name asset) expectedName then Some asset
      else firstNamed rest expectedName
  end.

(** [findMatchingAsset], updates.go lines 350-360. *)
Definition findMatchingAsset (assets : list GitHubAsset)
    (pattern version os arch : string) : result GitHubAsset :=
  let expectedName := buildAssetName pattern version os arch in
  match firstNamed assets expectedName with
  | Some asset => Ok asset
  | None =>
      Err (Errorf
             "no asset found matching pattern: %s (expected: %s) for version %s, os %s, arch %s"
             [VStr pattern; VStr expectedName; VStr version; VStr os; VStr arch])
  end.

(** ** [golang.org/x/mod/semver], as imported by [updates.go] *)

Module Semver.

Definition isDigit (c : ascii) : bool :=
  ((48 <=? N_of_ascii c) && (N_of_ascii c <=? 57))%N.

Definition isLetter (c : ascii) : bool :=
  (((65 <=? N_of_ascii c) && (N_of_ascii c <=? 90))
   || ((97 <=? N_of_ascii c) && (N_of_ascii c <=? 122)))%N.

(** [isIdentChar]: [0-9A-Za-z-] *)
Definition isIdentChar (c : ascii) : bool :=
  isLetter c || isDigit c || Ascii.eqb c "-".

Fixpoint allDigits (v : string) : bool :=
  match v with
  | EmptyString => true
  | String c v' => isDigit c && allDigits v'
  end.

(** [isNum]: every byte is a digit. *)
Definition isNum (v : string) : bool := allDigits v.

(** [isBadNum]: all digits, longer than one byte, leading zero. *)
Definition isBadNum (v : string) : bool :=
  match v with
  | String c (String _ _) => allDigits v && Ascii.eqb c "0"
  | _ => false
  end.

(** The longest prefix of digits and what follows it. *)
Fixpoint spanDigits (v : string) : string * string :=
  match v with
  | EmptyString => (EmptyString, EmptyString)
  | String c v' =>
      if isDigit c
      then let '(t, rest) := spanDigits v' in (String c t, rest)
      else (EmptyString, v)
  end.

(** [parseInt]: a number without leading zero, and the rest. *)
Definition parseInt (v : string) : option (string * string) :=
  match v with
  | EmptyString => None
  | String c _ =>
      if negb (isDigit c) then None
      else
        let '(t, rest) := spanDigits v in
        if Ascii.eqb c "0" && negb (String.length t =? 1)%nat then None
        else Some (t, rest)
  end.

Definition snoc (s : string) (c : ascii) : string := s +:+ String c EmptyString.

(** The loop of [parsePrerelease]: [seen] is [v[:i]], [ident] is
    [v[start:i]] and [v] is [v[i:]]. *)
Fixpoint scanPrerelease (v ident seen : string) : option (string * string) :=
  match v with
  | EmptyString =>
      if String.eqb ident "" || isBadNum ident then None else Some (seen, v)
  | String c v' =>
      if Ascii.eqb c "+" then
        if String.eqb ident "" || isBadNum ident then None else Some (seen, v)
      else if negb (isIdentChar c) && negb (Ascii.eqb c ".") then None
      else if Ascii.eqb c "." then
        if String.eqb ident "" || isBadNum ident then None
        else scanPrerelease v' "" (snoc seen c)
      else scanPrerelease v' (snoc ident c) (snoc seen c)
  end.

Definition parsePrerelease (v : string) : option (string * string) :=
  match v with
  | String c v' => if Ascii.eqb c "-" then scanPrerelease v' "" "-" else None
  | EmptyString => None
  end.

(** The loop of [parseBuild], with the same reading of the arguments. *)
Fixpoint scanBuild (v ident seen : string) : option (string * string) :=
  match v with
  | EmptyString => if String.eqb ident "" then None else Some (seen, v)
  | String c v' =>
      if negb (isIdentChar c) && negb (Ascii.eqb c ".") then None
      else if Ascii.eqb c "." then
        if String.eqb ident "" then None else scanBuild v' "" (snoc seen c)
      else scanBuild v' (snoc ident c) (snoc seen c)
  end.

Definition parseBuild (v : string) : option (string * string) :=
  match v with
  | String c v' => if Ascii.eqb c "+" then scanBuild v' "" "+" else None
  | EmptyString => None
  end.

Record parsed : Type := {
  major : string;
  minor : string;
  patch : string;
  short : string;
  prerelease : string;
  build : string
}.

Definition startsWith (c : ascii) (v : string) : bool :=
  match v with
  | String d _ => Ascii.eqb c d
  | EmptyString => false
  end.

Definition tail (v : string) : string :=
  match v with
  | String _ v' => v'
  | EmptyString => EmptyString
  end.

(** The end of [parse], once major, minor and patch are read. *)
Definition parseSuffix (ma mi pa v : string) : option parsed :=
  match (if startsWith "-" v then parsePrerelease v else Some (EmptyString, v)) with
  | None => None
  | Some (pre, v) =>
      match (if startsWith "+" v then parseBuild v else Some (EmptyString, v)) with
      | None => None
      | Some (bu, v) =>
          if String.eqb v "" then
            Some {| major := ma; minor := mi; patch := pa; short := "";
                    prerelease := pre; build := bu |}
          else None
      end
  end.

(** [parse]: [None] is the Go function's [ok == false]. *)
Definition parse (v : string) : option parsed :=
  if negb (startsWith "v" v) then None else
  match parseInt (tail v) with
  | None => None
  | Some (ma, v) =>
      if String.eqb v "" then
        Some {| major := ma; minor := "0"; patch := "0"; short := ".0.0";
                prerelease := ""; build := "" |}
      else if negb (startsWith "." v) then None else
      match parseInt (tail v) with
      | None => None
      | Some (mi, v) =>
          if String.eqb v "" then
            Some {| major := ma; minor := mi; patch := "0"; short := ".0";
                    prerelease := ""; build := "" |}
          else if negb (startsWith "." v) then None else
          match parseInt (tail v) with
          | None => None
          | Some (pa, v) => parseSuffix ma mi pa v
          end
      end
  end.

Definition IsValid (v : string) : bool :=
  match parse v with Some _ => true | None => false end.

Definition compareInt (x y : string) : Z :=
  if String.eqb x y then 0
  else if (String.length x <? String.length y)%nat then -1
  else if (String.length y <? String.length x)%nat then 1
  else if String.ltb x y then -1 else 1.

(** [nextIdent]: up to the next dot. *)
Fixpoint nextIdent (x : string) : string * string :=
  match x with
  | EmptyString => (EmptyString, EmptyString)
  | String c x' =>
      if Ascii.eqb c "." then (EmptyString, x)
      else let '(dx, rest) := nextIdent x' in (String c dx, rest)
  end.

(** The [for x != "" && y != ""] loop of [comparePrerelease]; every turn
    drops at least one byte of [x], so [String.length x] turns suffice. *)
Fixpoint comparePrereleaseLoop (fuel : nat) (x y : string) : Z :=
  match x, y with
  | EmptyString, _ => -1
  | _, EmptyString => 1
  | String _ x1, String _ y1 =>
      match fuel with
      | O => 0
      | S fuel' =>
          let '(dx, x2) := nextIdent x1 in
          let '(dy, y2) := nextIdent y1 in
          if negb (String.eqb dx dy) then
            let ix := isNum dx in
            let iy := isNum dy in
            if negb (Bool.eqb ix iy) then (if ix then -1 else 1)
            else if ix && (String.length dx <? String.length dy)%nat then -1
            else if ix && (String.length dy <? String.length dx)%nat then 1
            else if String.ltb dx dy then -1 else 1
          else comparePrereleaseLoop fuel' x2 y2
      end
  end.

Definition comparePrerelease (x y : string) : Z :=
  if String.eqb x y then 0
  else if String.eqb x "" then 1
  else if String.eqb y "" then -1
  else comparePrereleaseLoop (String.length x) x y.

(** [semver.Compare]: an invalid version is below every valid one, and two
    invalid versions are equal. *)
Definition Compare (v w : string) : Z :=
  match parse v, parse w with
  | None, None => 0
  | None, Some _ => -1
  | Some _, None => 1
  | Some pv, Some pw =>
      let c := compareInt (major pv) (major pw) in
      if negb (c =? 0) then c else
      let c := compareInt (minor pv) (minor pw) in
      if negb (c =? 0) then c else
      let c := compareInt (patch pv) (patch pw) in
      if negb (c =? 0) then c else
      comparePrerelease (prerelease pv) (prerelease pw)
  end.

End Semver.

(** ** Version comparison *)

(** The two [if !strings.HasPrefix(_, "v")] blocks of [isNewerVersion]. *)
Definition withV (version : string) : string :=
  if negb (HasPrefix version "v") then "v" +:+ version else version.

(** [isNewerVersion], updates.go lines 333-343. *)
Definition isNewerVersion (current latest : string) : bool :=
  let current := withV current in
  let latest := withV latest in
  0 <? Semver.Compare latest current.

(** ** Go's [strconv], with a 64-bit [int] *)

Module Strconv.

Definition maxInt : Z := 9223372036854775807.
Definition minInt : Z := -9223372036854775808.

(** The digit loop of [Atoi]: [n = n*10 + int(ch - '0')]. *)
Fixpoint digits (s : string) (n : Z) : option Z :=
  match s with
  | EmptyString => Some n
  | String ch s' =>
      if Semver.isDigit ch
      then digits s' (n * 10 + (Z.of_N (N_of_ascii ch) - 48))
      else None
  end.

(** [strconv.Atoi]: [None] stands for a non-nil error, be it a syntax error
    (empty input, a sign alone, a byte that is not a digit) or a range
    error (the value does not fit [int]). *)
Definition Atoi (s : string) : option Z :=
  match s with
  | EmptyString => None
  | String c s' =>
      let neg := Ascii.eqb c "-" in
      let body := if neg || Ascii.eqb c "+" then s' else s in
      match body with
      | EmptyString => None
      | String _ _ =>
          match digits body 0 with
          | None => None
          | Some n =>
              let n := if neg then - n else n in
              if (minInt <=? n) && (n <=? maxInt) then Some n else None
          end
      end
  end.

(** [strconv.Itoa] *)
Definition Itoa (i : Z) : string := NilZero.string_of_int (Z.to_int i).

End Strconv.

(** ** The world outside the program

    Everything [updates.go] obtains from the operating system, the network
    or the clock is read from a [World].  Directories are not tracked: the
    only trace of [os.MkdirAll] is whether it fails. *)

Record File : Type := {
  content : string;
  perm : Z
}.

Abbreviation FS := (gmap string File).

(** What an [io.Reader] yields: the bytes read before the end of the stream
    ([broken = false]) or before a read error ([broken = true]). *)
Record Stream : Type := {
  delivered : string;
  broken : bool
}.

Record Request : Type := {
  url : string;
  Authorization : option string;
  Accept : option string
}.

Inductive response : Type :=
  | TransportError (e : errno)
  | Response (StatusCode : Z) (body : Stream).

Inductive syscall : Type :=
  | SysMkdirAll (path : string)
  | SysCreate (path : string)
  | SysOpen (path : string)
  | SysStat (path : string)
  | SysChmod (path : string)
  | SysRemove (path : string).

Record World : Type := {
  GOOS : string;                              (* runtime.GOOS *)
  GOARCH : string;                            (* runtime.GOARCH *)
  filepath_Join : string -> string -> string; (* filepath.Join(dir, name) *)
  filepath_Dir : string -> string;            (* filepath.Dir(path) *)
  umask : Z;
  fault : syscall -> option errno;            (* the call is refused *)
  write_room : string -> option nat;          (* bytes the device still takes *)
  NewRequest_err : string -> option errno;    (* http.NewRequest("GET", url, nil) *)
  client_Do : Request -> response;            (* http.Client.Do *)
  json_Decode : Stream -> result GitHubRelease;
  Getpid : Z;                                 (* os.Getpid() *)
  Executable : result string;                 (* os.Executable() *)
  cmd_Start : list string -> option errno;    (* exec.Cmd.Start on this argv *)
  FindProcess : Z -> option errno;            (* os.FindProcess(pid) *)
  Signal0 : nat -> Z -> option errno;         (* process.Signal(0) at the n-th probe *)
  tasklist : nat -> Z -> result string;       (* output of tasklist at the n-th probe *)
  ticks : Z -> nat                            (* ticker deliveries before the deadline *)
}.

(** ** The state the program changes *)

Record State : Type := {
  fs : FS;
  os_Args : list string;
  stderr : list message;
  children : list (list string)               (* argv of every cmd.Start that succeeded *)
}.

Definition with_fs (st : State) (fs' : FS) : State :=
  {| fs := fs'; os_Args := os_Args st; stderr := stderr st; children := children st |}.

Definition Fprintf_stderr (st : State) (format : string) (args : list (value error)) : State :=
  {| fs := fs st; os_Args := os_Args st;
     stderr := stderr st ++ [(format, args)]; children := children st |}.

Definition started (st : State) (argv : list string) : State :=
  {| fs := fs st; os_Args := os_Args st; stderr := stderr st;
     children := children st ++ [argv] |}.

(** How a call ends: it returns, it ends the process ([os.Exit]), or it
    panics. *)
Inductive outcome (A : Type) : Type :=
  | Returns (a : A)
  | Exits (code : Z)
  | Panics.
Arguments Returns {A} a.
Arguments Exits {A} code.
Arguments Panics {A}.

(** ** File-system calls *)

Definition os_Stat (w : World) (m : FS) (name : string) : result File :=
  match fault w (SysStat name) with
  | Some e => Err (Errno e)
  | None =>
      match m !! name with
      | Some f => Ok f
      | None => Err (Errno ENOENT)
      end
  end.

(** [os.IsNotExist(err)] for the error of a call. *)
Definition IsNotExist {A : Type} (r : result A) : bool :=
  match r with
  | Err (Errno ENOENT) => true
  | _ => false
  end.

(** The mode of a file after [open(name, O_CREATE|O_TRUNC, 0666)]: an
    existing file keeps its mode, a new one gets [0666 &^ umask]. *)
Definition createdMode (w : World) (m : FS) (name : string) : Z :=
  match m !! name with
  | Some f => perm f
  | None => Z.ldiff 438 (umask w)
  end.

(** [os.Create]: [O_RDWR|O_CREATE|O_TRUNC] with mode 0666; an existing file
    is emptied. *)
Definition os_Create (w : World) (m : FS) (name : string) : result FS :=
  match fault w (SysCreate name) with
  | Some e => Err (Errno e)
  | None => Ok (<[name := {| content := ""; perm := createdMode w m name |}]> m)
  end.

Definition os_Open (w : World) (m : FS) (name : string) : option errno :=
  match fault w (SysOpen name) with
  | Some e => Some e
  | None =>
      match m !! name with
      | Some _ => None
      | None => Some ENOENT
      end
  end.

(** What reading an open file to its end yields. *)
Definition readFile (m : FS) (name : string) : Stream :=
  {| delivered := match m !! name with Some f => content f | None => "" end;
     broken := false |}.

Definition os_Chmod (w : World) (m : FS) (name : string) (mode : Z) : result FS :=
  match fault w (SysChmod name) with
  | Some e => Err (Errno e)
  | None =>
      match m !! name with
      | Some f => Ok (<[name := {| content := content f; perm := mode |}]> m)
      | None => Err (Errno ENOENT)
      end
  end.

Definition os_Remove (w : World) (m : FS) (name : string) : result FS :=
  match fault w (SysRemove name) with
  | Some e => Err (Errno e)
  | None =>
      match m !! name with
      | Some _ => Ok (delete name m)
      | None => Err (Errno ENOENT)
      end
  end.

Definition os_MkdirAll (w : World) (path : string) : option errno :=
  fault w (SysMkdirAll path).

(** Bytes appended through the descriptor of an open file. *)
Definition write (m : FS) (name : string) (data : string) : FS :=
  match m !! name with
  | Some f => <[name := {| content := content f +:+ data; perm := perm f |}]> m
  | None => m
  end.

(** [io.Copy(out, src)] into the open file [name]: what arrives is written
    as it arrives; the copy stops at the first write or read error. *)
Definition io_Copy (w : World) (m : FS) (name : string) (src : Stream)
  : FS * option error :=
  let data := delivered src in
  match write_room w name with
  | Some room =>
      if (room <? String.length data)%nat
      then (write m name (substring 0 room data), Some (Errno ENOSPC))
      else (write m name data, if broken src then Some (Errno EIO) else None)
  | None => (write m name data, if broken src then Some (Errno EIO) else None)
  end.

(** ** The program *)

(** [getExecutableExtension], updates.go lines 533-538. *)
Definition getExecutableExtension (w : World) : string :=
  if String.eqb (GOOS w) "windows" then ".exe" else "".

(** [filepath.Join(dir, "update"+getExecutableExtension())], the expression
    that opens [CheckAndPrepareUpdate] (line 126), [ApplyUpdate] (line 159)
    and [CleanupUpdate] (line 192). *)
Definition updatePath (w : World) (dataDir : string) : string :=
  filepath_Join w dataDir ("update" +:+ getExecutableExtension w).

(** [validateConfig], updates.go lines 270-290. *)
Definition validateConfig (config : UpdateConfig) : option error :=
  if String.eqb (GitHubOwner config) "" then Some (Errorf "GitHubOwner is required" [])
  else if String.eqb (GitHubRepo config) "" then Some (Errorf "GitHubRepo is required" [])
  else if String.eqb (CurrentVersion config) "" then Some (Errorf "CurrentVersion is required" [])
  else if String.eqb (DataDir config) "" then Some (Errorf "DataDir is required" [])
  else if String.eqb (ExecutablePath config) "" then Some (Errorf "ExecutablePath is required" [])
  else if String.eqb (AssetPattern config) "" then Some (Errorf "AssetPattern is required" [])
  else None.

(** The header every request of the program may carry. *)
Definition tokenHeader (token : string) : option string :=
  if negb (String.eqb token "") then Some ("token " +:+ token) else None.

(** [fetchLatestRelease], updates.go lines 297-327. *)
Definition fetchLatestRelease (w : World) (config : UpdateConfig) : result GitHubRelease :=
  let url := "https://api.github.com/repos/" +:+ GitHubOwner config +:+ "/"
             +:+ GitHubRepo config +:+ "/releases/latest" in
  match NewRequest_err w url with
  | Some e => Err (Errno e)
  | None =>
      let req := {| url := url;
                    Authorization := tokenHeader (GitHubToken config);
                    Accept := Some "application/vnd.github.v3+json" |} in
      match client_Do w req with
      | TransportError e => Err (Errno e)
      | Response status body =>
          if negb (status =? 200) then
            Err (Errorf "GitHub API returned status %d for %s" [VInt status; VStr url])
          else
            match json_Decode w body with
            | Err e => Err (Errorf "failed to decode GitHub release JSON: %w" [VErr e])
            | Ok release => Ok release
            end
      end
  end.

(** The request [downloadAsset] sends. *)
Definition assetRequest (url token : string) : Request :=
  {| url := url; Authorization := tokenHeader token; Accept := None |}.

(** [downloadAsset], updates.go lines 388-429. *)
Definition downloadAsset (w : World) (m : FS) (url destPath token : string)
  : FS * option error :=
  match os_MkdirAll w (filepath_Dir w destPath) with
  | Some e =>
      (m, Some (Errorf "failed to create directory for %q: %w" [VStr destPath; VErr (Errno e)]))
  | None =>
  match NewRequest_err w url with
  | Some e =>
      (m, Some (Errorf "failed to create HTTP request for %q: %w" [VStr url; VErr (Errno e)]))
  | None =>
  match client_Do w (assetRequest url token) with
  | TransportError e =>
      (m, Some (Errorf "failed to download from %q: %w" [VStr url; VErr (Errno e)]))
  | Response status body =>
      if negb (status =? 200) then
        (m, Some (Errorf "download from %q failed with status %d" [VStr url; VInt status]))
      else
        match os_Create w m destPath with
        | Err e =>
            (m, Some (Errorf "failed to create destination file %q: %w" [VStr destPath; VErr e]))
        | Ok m1 =>
            match io_Copy w m1 destPath body with
            | (m2, Some e) =>
                (m2, Some (Errorf "failed to write downloaded data to %q: %w"
                             [VStr destPath; VErr e]))
            | (m2, None) => (m2, None)
            end
        end
  end end end.

(** [CheckAndPrepareUpdate], updates.go lines 92-145.  [Ok None] is the
    Go result [(nil, nil)]: no update needed. *)
Definition CheckAndPrepareUpdate (w : World) (st : State) (config : UpdateConfig)
  : State * result (option UpdateInfo) :=
  match validateConfig config with
  | Some e => (st, Err (Errorf "invalid config: %w" [VErr e]))
  | None =>
  let targetOS := if String.eqb (OS config) "" then GOOS w else OS config in
  let targetArch := if String.eqb (Arch config) "" then GOARCH w else Arch config in
  match fetchLatestRelease w config with
  | Err e => (st, Err (Errorf "failed to fetch latest release: %w" [VErr e]))
  | Ok release =>
  if negb (isNewerVersion (CurrentVersion config) (TagName release)) then (st, Ok None)
  else
  match findMatchingAsset (Assets release) (AssetPattern config) (TagName release)
          targetOS targetArch with
  | Err e => (st, Err (Errorf "failed to find matching asset: %w" [VErr e]))
  | Ok asset =>
  let updatePath := updatePath w (DataDir config) in
  match downloadAsset w (fs st) (BrowserDownloadURL asset) updatePath (GitHubToken config) with
  | (m, Some e) => (with_fs st m, Err (Errorf "failed to download update: %w" [VErr e]))
  | (m, None) =>
  let info := {| ui_CurrentVersion := CurrentVersion config;
                 ui_LatestVersion := TagName release;
                 ui_DownloadURL := BrowserDownloadURL asset;
                 ui_AssetName := Name asset;
                 ui_ReleaseNotes := Body release |} in
  if negb (String.eqb (GOOS w) "windows") then
    match os_Chmod w m updatePath 493 with
    | Err e => (with_fs st m, Err (Errorf "failed to make update executable: %w" [VErr e]))
    | Ok m' => (with_fs st m', Ok (Some info))
    end
  else (with_fs st m, Ok (Some info))
  end end end end.

(** [ApplyUpdate], updates.go lines 158-183. *)
Definition ApplyUpdate (w : World) (st : State) (config : UpdateConfig)
  : State * outcome (option error) :=
  let updatePath := updatePath w (DataDir config) in
  if IsNotExist (os_Stat w (fs st) updatePath) then
    (st, Returns (Some (Errorf "no prepared update found at %s" [VStr updatePath])))
  else
    let currentPID := Getpid w in
    let argv := [updatePath; "--perform-update";
                 "--original-path=" +:+ ExecutablePath config;
                 "--pid=" +:+ Strconv.Itoa currentPID] in
    match cmd_Start w argv with
    | Some e =>
        (st, Returns (Some (Errorf "failed to start update process: %w" [VErr (Errno e)])))
    | None => (started st argv, Exits 0)
    end.

(** [CleanupUpdate], updates.go lines 191-203. *)
Definition CleanupUpdate (w : World) (st : State) (dataDir : string)
  : State * option error :=
  let updatePath := updatePath w dataDir in
  if IsNotExist (os_Stat w (fs st) updatePath) then (st, None)
  else
    match os_Remove w (fs st) updatePath with
    | Err e => (st, Some (Errorf "failed to cleanup update file: %w" [VErr e]))
    | Ok m => (with_fs st m, None)
    end.

(** *** Liveness of the old process *)

(** The ASCII white space [strings.TrimSpace] removes; the Unicode white
    space it removes as well (U+0085, U+00A0, ...) is left in place here. *)
Definition isSpace (c : ascii) : bool :=
  (((9 <=? N_of_ascii c) && (N_of_ascii c <=? 13)) || (N_of_ascii c =? 32))%N.

Fixpoint trimLeft (s : string) : string :=
  match s with
  | EmptyString => EmptyString
  | String c s' => if isSpace c then trimLeft s' else s
  end.

Fixpoint trimRight (s : string) : string :=
  match s with
  | EmptyString => EmptyString
  | String c s' =>
      let r := trimRight s' in
      if isSpace c && String.eqb r "" then EmptyString else String c r
  end.

Definition TrimSpace (s : string) : string := trimRight (trimLeft s).

(** [strings.Split(s, "\n")[0]] *)
Fixpoint firstLine (s : string) : string :=
  match s with
  | EmptyString => EmptyString
  | String c s' => if (N_of_ascii c =? 10)%N then EmptyString else String c (firstLine s')
  end.

(** [isWindowsProcessRunning], updates.go lines 480-494; [strings.Split]
    never returns an empty slice for a non-empty separator.  The run of
    [tasklist] is read from the world and leaves no trace in the state. *)
Definition isWindowsProcessRunning (w : World) (probe : nat) (pid : Z) : bool :=
  match tasklist w probe pid with
  | Err _ => false
  | Ok output =>
      negb (Contains (firstLine (TrimSpace output)) "No tasks are running")
  end.

(** [isProcessRunning], updates.go lines 459-474. *)
Definition isProcessRunning (w : World) (probe : nat) (pid : Z) : bool :=
  match FindProcess w pid with
  | Some _ => false
  | None =>
      if negb (String.eqb (GOOS w) "windows") then
        match Signal0 w probe pid with
        | None => true          (* err == nil *)
        | Some _ => false
        end
      else isWindowsProcessRunning w probe pid
  end.

(** The [for { select { ... } }] of [waitForProcessExit]: [n] ticker
    deliveries are still to come before the deadline, [probe] probes have
    been made. *)
Fixpoint pollUntilExit (w : World) (pid timeout : Z) (n probe : nat) : option error :=
  match n with
  | O => Some (Errorf "timeout waiting for process %d to exit after %s"
                 [VInt pid; VInt timeout])
  | S n' =>
      if negb (isProcessRunning w probe pid) then None
      else pollUntilExit w pid timeout n' (S probe)
  end.

(** [waitForProcessExit], updates.go lines 435-452; [timeout] is in
    nanoseconds. *)
Definition waitForProcessExit (w : World) (pid timeout : Z) : option error :=
  pollUntilExit w pid timeout (ticks w timeout) 0.

(** *** Replacing the original executable *)

(** [copyFile], updates.go lines 500-529. *)
Definition copyFile (w : World) (m : FS) (src dst : string) : FS * option error :=
  match os_Open w m src with
  | Some e =>
      (m, Some (Errorf "failed to open source file %q: %w" [VStr src; VErr (Errno e)]))
  | None =>
  match os_Create w m dst with
  | Err e =>
      (m, Some (Errorf "failed to create destination file %q: %w" [VStr dst; VErr e]))
  | Ok m1 =>
  match io_Copy w m1 dst (readFile m1 src) with
  | (m2, Some e) =>
      (m2, Some (Errorf "failed to copy content from %q to %q: %w"
                   [VStr src; VStr dst; VErr e]))
  | (m2, None) =>
  match os_Stat w m2 src with
  | Err e =>
      (m2, Some (Errorf "failed to get source file info %q: %w" [VStr src; VErr e]))
  | Ok sourceInfo =>
  match os_Chmod w m2 dst (perm sourceInfo) with
  | Err e =>
      (m2, Some (Errorf "failed to set permissions for %q: %w" [VStr dst; VErr e]))
  | Ok m3 => (m3, None)
  end end end end end.

(** One turn of the [for _, arg := range args[1:]] loop of
    [HandleUpdateMode]: the pair is [(originalPath, pidToWait)]. *)
Definition parseArg (acc : string * Z) (arg : string) : string * Z :=
  let '(originalPath, pidToWait) := acc in
  if HasPrefix arg "--original-path=" then
    (TrimPrefix arg "--original-path=", pidToWait)
  else if HasPrefix arg "--pid=" then
    match Strconv.Atoi (TrimPrefix arg "--pid=") with
    | Some pid => (originalPath, pid)
    | None => (originalPath, pidToWait)
    end
  else (originalPath, pidToWait).

(** The whole loop, from the zero values of the two variables. *)
Definition parseHandoff (args : list string) : string * Z :=
  fold_left parseArg args ("", 0).

Definition thirtySeconds : Z := 30 * 1000000000.

(** [HandleUpdateMode] from line 244 on: wait, copy, resume. *)
Definition performUpdate (w : World) (st : State) (originalPath : string) (pidToWait : Z)
  : State * outcome bool :=
  match waitForProcessExit w pidToWait thirtySeconds with
  | Some e =>
      (Fprintf_stderr st "Failed to wait for old process (PID %d): %v\n"
         [VInt pidToWait; VErr e], Exits 1)
  | None =>
  match Executable w with
  | Err e =>
      (Fprintf_stderr st "Failed to get current executable path: %v\n" [VErr e], Exits 1)
  | Ok currentPath =>
  match copyFile w (fs st) currentPath originalPath with
  | (m, Some e) =>
      (Fprintf_stderr (with_fs st m)
         "Failed to replace original executable from %q to %q: %v\n"
         [VStr currentPath; VStr originalPath; VErr e], Exits 1)
  | (m, None) => (with_fs st m, Returns true)
  end end end.

(** [HandleUpdateMode], updates.go lines 218-266.  [os.Args[1:]] panics on
    an empty [os.Args]. *)
Definition HandleUpdateMode (w : World) (st : State) : State * outcome bool :=
  match os_Args st with
  | [] => (st, Panics)
  | _ :: args =>
      match args with
      | [] => (st, Returns false)
      | arg0 :: rest =>
          if negb (String.eqb arg0 "--perform-update") then (st, Returns false)
          else
            let '(originalPath, pidToWait) := parseHandoff rest in
            if String.eqb originalPath "" || (pidToWait =? 0) then
              (Fprintf_stderr st "Invalid update mode arguments: original-path=%q, pid=%d\n"
                 [VStr originalPath; VInt pidToWait], Exits 1)
            else performUpdate w st originalPath pidToWait
      end
  end.

(** ** Vocabulary of the statements *)

(** The four placeholders of an asset pattern. *)
Inductive placeholder : Type := PVersion | POs | PArch | PExt.

Definition token (k : placeholder) : string :=
  match k with
  | PVersion => "{version}"
  | POs => "{os}"
  | PArch => "{arch}"
  | PExt => "{ext}"
  end.

(** A pattern laid out as literal text and placeholders. *)
Inductive piece : Type :=
  | Text (s : string)
  | Hole (k : placeholder).

Fixpoint flatten (ps : list piece) : string :=
  match ps with
  | [] => EmptyString
  | Text s :: rest => s +:+ flatten rest
  | Hole k :: rest => token k +:+ flatten rest
  end.

(** No opening brace in the string. *)
Fixpoint braceFree (s : string) : bool :=
  match s with
  | EmptyString => true
  | String c s' => negb (Ascii.eqb c "{") && braceFree s'
  end.

Definition plainText (p : piece) : Prop :=
  match p with
  | Text s => braceFree s = true
  | Hole _ => True
  end.

(** Every [Hole k] filled with [new]. *)
Definition fill (k : placeholder) (new : string) (ps : list piece) : list piece :=
  map (fun p => match p with
                | Hole k' => match k, k' with
                             | PVersion, PVersion | POs, POs
                             | PArch, PArch | PExt, PExt => Text new
                             | _, _ => p
                             end
                | Text _ => p
                end) ps.

(** The extension [buildAssetName] substitutes for [{ext}]. *)
Definition extFor (os : string) : string :=
  if String.eqb os "windows" then ".exe" else "".

(** ** A sample installation

    A Linux host with the application installed at [/usr/local/bin/app],
    its cache in [/home/u/.cache/app], and a release [v1.2.0] published
    with one asset per platform. *)

Definition windowsAsset : GitHubAsset :=
  {| Name := "app-v1.2.0-windows-amd64.exe";
     BrowserDownloadURL := "https://example.invalid/app-v1.2.0-windows-amd64.exe";
     Size := 8 |}.

Definition linuxAsset : GitHubAsset :=
  {| Name := "app-v1.2.0-linux-amd64";
     BrowserDownloadURL := "https://example.invalid/app-v1.2.0-linux-amd64";
     Size := 8 |}.

Definition sampleRelease : GitHubRelease :=
  {| TagName := "v1.2.0"; rel_Name := "1.2.0"; Body := "notes";
     Draft := false; Prerelease := false;
     Assets := [windowsAsset; linuxAsset] |}.

(** [filepath.Join] and [filepath.Dir] on clean, slash-separated paths. *)
Definition joinClean (dir name : string) : string :=
  if String.eqb dir "" then name else dir +:+ "/" +:+ name.

Fixpoint hasSlash (s : string) : bool :=
  match s with
  | EmptyString => false
  | String c s' => Ascii.eqb c "/" || hasSlash s'
  end.

Fixpoint dirClean (path : string) : string :=
  match path with
  | EmptyString => EmptyString
  | String c s' => if hasSlash s' then String c (dirClean s') else EmptyString
  end.

Definition sampleConfig : UpdateConfig :=
  {| GitHubOwner := "asaidimu"; GitHubRepo := "ghupdate"; GitHubToken := "";
     CurrentVersion := "v1.0.0"; DataDir := "/home/u/.cache/app";
     ExecutablePath := "/usr/local/bin/app";
     AssetPattern := "app-{version}-{os}-{arch}{ext}"; OS := ""; Arch := "" |}.

(** The host: [assetBody] is what the asset download yields, [refuse] the
    calls the system refuses, [signal] what the null signal reports. *)
Definition linuxHost (assetBody : Stream) (refuse : syscall -> option errno)
    (signal : nat -> Z -> option errno) : World :=
  {| GOOS := "linux";
     GOARCH := "amd64";
     filepath_Join := joinClean;
     filepath_Dir := dirClean;
     umask := 18;
     fault := refuse;
     write_room := fun _ => None;
     NewRequest_err := fun _ => None;
     client_Do := fun req =>
       if String.eqb (url req) "https://api.github.com/repos/asaidimu/ghupdate/releases/latest"
       then Response 200 {| delivered := "{}"; broken := false |}
       else if String.eqb (url req) (BrowserDownloadURL linuxAsset)
       then Response 200 assetBody
       else Response 404 {| delivered := ""; broken := false |};
     json_Decode := fun _ => Ok sampleRelease;
     Getpid := 4242;
     Executable := Ok "/home/u/.cache/app/update";
     cmd_Start := fun _ => None;
     FindProcess := fun _ => None;
     Signal0 := signal;
     tasklist := fun _ _ => Err (Errno ENOENT);
     ticks := fun _ => 300%nat |}.

Definition noFault : syscall -> option errno := fun _ => None.

(** The old process is gone at the first probe. *)
Definition parentGone : nat -> Z -> option errno := fun _ _ => Some ESRCH.

(** The installed executable, readable and executable by its owner only,
    and the state of a process started with [args]. *)
Definition installed : FS :=
  {[ "/usr/local/bin/app" := {| content := "OLD"; perm := 448 |} ]}.

Definition processState (m : FS) (args : list string) : State :=
  {| fs := m; os_Args := args; stderr := []; children := [] |}.

(** The staged update next to the installed executable, and the arguments
    [ApplyUpdate] hands to the child it starts from process 4242. *)
Definition stagedAndInstalled : FS :=
  <[ "/home/u/.cache/app/update" := {| content := "NEW"; perm := 493 |} ]> installed.

Definition handoffArgs : list string :=
  ["/home/u/.cache/app/update"; "--perform-update";
   "--original-path=/usr/local/bin/app"; "--pid=4242"].

Definition quietHost : World :=
  linuxHost {| delivered := "NEW"; broken := false |} noFault parentGone.

(** Process 1 belongs to another user: the null signal is refused with
    [EPERM]; no other process exists. *)
Definition foreignInit : nat -> Z -> option errno :=
  fun _ pid => if pid =? 1 then Some EPERM else Some ESRCH.

(** The arguments of the child [ApplyUpdate] starts. *)
Definition handoffArgv (w : World) (config : UpdateConfig) : list string :=
  [updatePath w (DataDir config); "--perform-update";
   "--original-path=" +:+ ExecutablePath config;
   "--pid=" +:+ Strconv.Itoa (Getpid w)].

(** A host on which no process can be started. *)
Definition noExecHost : World :=
  {| GOOS := GOOS quietHost; GOARCH := GOARCH quietHost;
     filepath_Join := filepath_Join quietHost; filepath_Dir := filepath_Dir quietHost;
     umask := umask quietHost; fault := fault quietHost;
     write_room := write_room quietHost; NewRequest_err := NewRequest_err quietHost;
     client_Do := client_Do quietHost; json_Decode := json_Decode quietHost;
     Getpid := Getpid quietHost; Executable := Executable quietHost;
     cmd_Start := fun _ => Some EACCES;
     FindProcess := FindProcess quietHost; Signal0 := Signal0 quietHost;
     tasklist := tasklist quietHost; ticks := ticks quietHost |}.

(** The application as the user started it. *)
Definition userArgs : list string := ["/usr/local/bin/app"; "serve"; "--port"; "8080"].




(** Two hosts that differ in what the asset download yields. *)
Definition firstHost : World :=
  linuxHost {| delivered := "FIRST"; broken := false |} noFault parentGone.

Definition secondHost : World :=
  linuxHost {| delivered := "SECOND"; broken := false |} noFault parentGone.

(** What a successful check on the sample installation reports. *)
Definition sampleInfo : UpdateInfo :=
  {| ui_CurrentVersion := "v1.0.0"; ui_LatestVersion := "v1.2.0";
     ui_DownloadURL := "https://example.invalid/app-v1.2.0-linux-amd64";
     ui_AssetName := "app-v1.2.0-linux-amd64";
     ui_ReleaseNotes := "notes" |}.


(** The diagnostic of [HandleUpdateMode] for a malformed handoff. *)
Definition invalidArguments (st : State) (originalPath : string) (pidToWait : Z) : State :=
  Fprintf_stderr st "Invalid update mode arguments: original-path=%q, pid=%d\n"
    [VStr originalPath; VInt pidToWait].



(** One of the six fields [validateConfig] asks for is empty. *)
Definition requiredMissing (config : UpdateConfig) : Prop :=
  GitHubOwner config = "" \/ GitHubRepo config = "" \/ CurrentVersion config = ""
  \/ DataDir config = "" \/ ExecutablePath config = "" \/ AssetPattern config = "".

(** The platform an asset is looked up for: the configured one, or the
    running one where the configuration is silent. *)
Definition targetOS (w : World) (config : UpdateConfig) : string :=
  if String.eqb (OS config) "" then GOOS w else OS config.

Definition targetArch (w : World) (config : UpdateConfig) : string :=
  if String.eqb (Arch config) "" then GOARCH w else Arch config.

(** The same installation, already at the latest release. *)
Definition upToDateConfig : UpdateConfig :=
  {| GitHubOwner := "asaidimu"; GitHubRepo := "ghupdate"; GitHubToken := "";
     CurrentVersion := "v1.2.0"; DataDir := "/home/u/.cache/app";
     ExecutablePath := "/usr/local/bin/app";
     AssetPattern := "app-{version}-{os}-{arch}{ext}"; OS := ""; Arch := "" |}.

(** The old process answers every null signal: it never exits. *)
Definition parentStays : nat -> Z -> option errno := fun _ _ => None.

Definition stuckHost : World :=
  linuxHost {| delivered := "NEW"; broken := false |} noFault parentStays.

(** The values of the [--original-path=] arguments, and the values of the
    [--pid=] arguments that [strconv.Atoi] accepts, in order. *)
Definition pathsOf (args : list string) : list string :=
  omap (fun arg => if HasPrefix arg "--original-path="
                   then Some (TrimPrefix arg "--original-path=") else None) args.

Definition pidsOf (args : list string) : list Z :=
  omap (fun arg => if HasPrefix arg "--original-path=" then None
                   else if HasPrefix arg "--pid="
                   then Strconv.Atoi (TrimPrefix arg "--pid=") else None) args.

(** The request [fetchLatestRelease] sends. *)
Definition releaseRequest (config : UpdateConfig) : Request :=
  {| url := "https://api.github.com/repos/" +:+ GitHubOwner config +:+ "/"
            +:+ GitHubRepo config +:+ "/releases/latest";
     Authorization := tokenHeader (GitHubToken config);
     Accept := Some "application/vnd.github.v3+json" |}.


(** ** Pre-release strings as lists of identifiers *)

Fixpoint dotFree (s : string) : bool :=
  match s with
  | EmptyString => true
  | String c s' => negb (Ascii.eqb c ".") && dotFree s'
  end.

(** A non-empty identifier without a dot. *)
Definition okIdent (ident : string) : Prop :=
  ident <> "" /\ dotFree ident = true.

(** The identifiers, each followed by a dot. *)
Fixpoint dotted (idents : list string) : string :=
  match idents with
  | [] => EmptyString
  | ident :: rest => ident +:+ String "." (dotted rest)
  end.

(** The identifiers separated by dots. *)
Fixpoint joinDots (idents : list string) : string :=
  match idents with
  | [] => EmptyString
  | ident :: rest =>
      ident +:+ match rest with
                | [] => EmptyString
                | _ :: _ => String "." (joinDots rest)
                end
  end.

(** What [comparePrerelease] holds in [x] or [y] at the top of its loop:
    nothing, or a separator and the identifiers still to compare. *)
Definition stage (sep : ascii) (idents : list string) : string :=
  match idents with
  | [] => EmptyString
  | _ :: _ => String sep (joinDots idents)
  end.

(** The comparison of two different identifiers in the loop. *)
Definition compareIdent (dx dy : string) : Z :=
  let ix := Semver.isNum dx in
  let iy := Semver.isNum dy in
  if negb (Bool.eqb ix iy) then (if ix then -1 else 1)
  else if ix && (String.length dx <? String.length dy)%nat then -1
  else if ix && (String.length dy <? String.length dx)%nat then 1
  else if String.ltb dx dy then -1 else 1.

(** The loop, on the lists of identifiers. *)
Fixpoint compareIdents (lx ly : list string) : Z :=
  match lx, ly with
  | [], _ => -1
  | _ :: _, [] => 1
  | dx :: rx, dy :: ry =>
      if negb (String.eqb dx dy) then compareIdent dx dy else compareIdents rx ry
  end.

(** A parsed pre-release: empty, or a hyphen and dot-separated
    identifiers. *)
Definition wfPrerelease (x : string) : Prop :=
  x = "" \/ exists idents,
              idents <> [] /\ Forall okIdent idents /\ x = String "-" (joinDots idents).

(** The asset has been withdrawn: every request is answered 404. *)
Definition goneHost : World :=
  {| GOOS := "linux"; GOARCH := "amd64";
     filepath_Join := joinClean; filepath_Dir := dirClean;
     umask := 18; fault := noFault;
     write_room := fun _ => None; NewRequest_err := fun _ => None;
     client_Do := fun _ => Response 404 {| delivered := "Not Found"; broken := false |};
     json_Decode := fun _ => Ok sampleRelease;
     Getpid := 4242; Executable := Ok "/usr/local/bin/app";
     cmd_Start := fun _ => None;
     FindProcess := fun _ => None;
     Signal0 := parentGone;
     tasklist := fun _ _ => Err (Errno ENOENT);
     ticks := fun _ => 300%nat |}.

(** The staging directory cannot be searched: [stat] on the staged path is
    refused with [EACCES], and nothing can be started from it. *)
Definition refuseStat : syscall -> option errno :=
  fun call =>
    match call with
    | SysStat "/home/u/.cache/app/update" => Some EACCES
    | _ => None
    end.

Definition lockedDirHost : World :=
  {| GOOS := GOOS quietHost; GOARCH := GOARCH quietHost;
     filepath_Join := filepath_Join quietHost; filepath_Dir := filepath_Dir quietHost;
     umask := umask quietHost; fault := refuseStat;
     write_room := write_room quietHost; NewRequest_err := NewRequest_err quietHost;
     client_Do := client_Do quietHost; json_Decode := json_Decode quietHost;
     Getpid := Getpid quietHost; Executable := Executable quietHost;
     cmd_Start := fun _ => Some EACCES;
     FindProcess := FindProcess quietHost; Signal0 := Signal0 quietHost;
     tasklist := tasklist quietHost; ticks := ticks quietHost |}.





(** * Properties *)

(** ** Asset names *)

Section ReplaceAll.

Variables old' new : string.
Variable c0 : ascii.
Let old := String c0 old'.

Lemma HasPrefix_app (p rest : string) : HasPrefix (p +:+ rest) p = true.
Proof.
  unfold HasPrefix. induction p as [|a p IH]; simpl.
  - now destruct rest.
  - destruct (ascii_dec a a); [exact IH | congruence].
Qed.

Lemma replace_from_skip (a rest : string) :
  replace_from (String.length a) (a +:+ rest) old new = replace_from 0 rest old new.
Proof. induction a as [|a0 a IH]; simpl; [reflexivity | exact IH]. Qed.

Lemma replace_from_hit (rest : string) :
  replace_from 0 (old +:+ rest) old new = new +:+ replace_from 0 rest old new.
Proof.
  change (old +:+ rest) with (String c0 (old' +:+ rest)).
  cbn [replace_from].
  change (String c0 (old' +:+ rest)) with (old +:+ rest).
  rewrite HasPrefix_app.
  replace (String.length old - 1)%nat with (String.length old') by (simpl; lia).
  now rewrite replace_from_skip.
Qed.

End ReplaceAll.

Lemma HasPrefix_head_ne (a c : ascii) (p s : string) :
  Ascii.eqb c a = false -> HasPrefix (String c s) (String a p) = false.
Proof.
  intros Hne. unfold HasPrefix.
  change (String.prefix (String a p) (String c s))
    with (if ascii_dec a c then String.prefix p s else false).
  destruct (ascii_dec a c) as [-> | _]; [|reflexivity].
  now rewrite Ascii.eqb_refl in Hne.
Qed.

Lemma HasPrefix_token_text (k : placeholder) (c : ascii) (s : string) :
  negb (Ascii.eqb c "{") = true -> HasPrefix (String c s) (token k) = false.
Proof.
  intros Hc. apply negb_true_iff in Hc.
  destruct k; now apply HasPrefix_head_ne.
Qed.

(** Brace-free text is copied by a replacement of any token. *)
Lemma replace_from_text (k : placeholder) (new v rest : string) :
  braceFree v = true ->
  replace_from 0 (v +:+ rest) (token k) new
  = v +:+ replace_from 0 rest (token k) new.
Proof.
  induction v as [|c v IH]; intros Hv; [reflexivity |].
  cbn [braceFree] in Hv. apply andb_prop in Hv as [Hc Hv].
  change (String c v +:+ rest) with (String c (v +:+ rest)).
  cbn [replace_from].
  rewrite (HasPrefix_token_text k c (v +:+ rest) Hc). now rewrite IH.
Qed.

Definition samePlaceholder (k k' : placeholder) : bool :=
  match k, k' with
  | PVersion, PVersion | POs, POs | PArch, PArch | PExt, PExt => true
  | _, _ => false
  end.

(** A different placeholder is copied as well. *)
Lemma replace_from_other (k k' : placeholder) (new rest : string) :
  samePlaceholder k k' = false ->
  replace_from 0 (token k' +:+ rest) (token k) new
  = token k' +:+ replace_from 0 rest (token k) new.
Proof. destruct k, k'; simpl; intros H; try discriminate H; reflexivity. Qed.

Lemma ReplaceAll_token (s : string) (k : placeholder) (new : string) :
  ReplaceAll s (token k) new = replace_from 0 s (token k) new.
Proof. now destruct k. Qed.

(** Replacing a token in a laid-out pattern fills its holes. *)
Lemma ReplaceAll_flatten (k : placeholder) (new : string) (ps : list piece) :
  Forall plainText ps ->
  ReplaceAll (flatten ps) (token k) new = flatten (fill k new ps).
Proof.
  rewrite ReplaceAll_token.
  induction 1 as [|p ps Hp _ IH]; simpl; [reflexivity |].
  destruct p as [s | k'].
  - simpl in Hp. rewrite replace_from_text by exact Hp. now rewrite IH.
  - destruct (samePlaceholder k k') eqn:E.
    + assert (k' = k) as -> by (destruct k, k'; simpl in E; congruence).
      assert (Hhit : replace_from 0 (token k +:+ flatten ps) (token k) new
                     = new +:+ replace_from 0 (flatten ps) (token k) new)
        by (destruct k; apply replace_from_hit).
      rewrite Hhit, IH. now destruct k.
    + rewrite replace_from_other by exact E. rewrite IH.
      destruct k, k'; simpl in E; try discriminate E; reflexivity.
Qed.

Lemma fill_plainText (k : placeholder) (new : string) (ps : list piece) :
  braceFree new = true -> Forall plainText ps -> Forall plainText (fill k new ps).
Proof.
  intros Hnew. induction 1 as [|p ps Hp _ IH]; simpl; constructor; [|exact IH].
  destruct p as [s | k']; [exact Hp |]. destruct k, k'; simpl; auto.
Qed.

Definition holeOf (p : piece) : option placeholder :=
  match p with
  | Hole k => Some k
  | Text _ => None
  end.

Lemma fill_holes (k : placeholder) (new : string) (ps : list piece) (j : placeholder) :
  In (Some j) (map holeOf (fill k new ps)) ->
  samePlaceholder k j = false /\ In (Some j) (map holeOf ps).
Proof.
  induction ps as [|p ps IH]; simpl; [tauto |].
  intros [H | H].
  - destruct p as [s | k']; [discriminate H |].
    destruct k, k'; simpl in H; try discriminate H;
      injection H as <-; split; auto.
  - destruct (IH H); auto.
Qed.

Lemma braceFree_app (a b : string) :
  braceFree a = true -> braceFree b = true -> braceFree (a +:+ b) = true.
Proof.
  induction a as [|c a IH]; simpl; [auto |].
  intros Ha Hb. apply andb_prop in Ha as [Hc Ha]. rewrite Hc. simpl. auto.
Qed.

Lemma flatten_braceFree (ps : list piece) :
  Forall plainText ps -> (forall j, ~ In (Some j) (map holeOf ps)) ->
  braceFree (flatten ps) = true.
Proof.
  induction 1 as [|p ps Hp _ IH]; simpl; intros Hno; [reflexivity |].
  destruct p as [s | k].
  - apply braceFree_app; [exact Hp |]. apply IH. intros j Hj. apply (Hno j). now right.
  - exfalso. apply (Hno k). now left.
Qed.

Lemma braceFree_no_token (s : string) (k : placeholder) :
  braceFree s = true -> Contains s (token k) = false.
Proof.
  induction s as [|c s IH]; intros Hs.
  - now destruct k.
  - cbn [braceFree] in Hs. apply andb_prop in Hs as [Hc Hs].
    cbn [Contains]. rewrite (IH Hs).
    now rewrite (HasPrefix_token_text k c s Hc).
Qed.

(** What [buildAssetName] makes of a laid-out pattern. *)
Lemma buildAssetName_flatten (ps : list piece) (version os arch : string) :
  Forall plainText ps ->
  braceFree version = true -> braceFree os = true -> braceFree arch = true ->
  buildAssetName (flatten ps) version os arch
  = flatten (fill PExt (extFor os) (fill PArch arch (fill POs os (fill PVersion version ps)))).
Proof.
  intros Hps Hv Ho Ha. unfold buildAssetName.
  change "{version}" with (token PVersion). change "{os}" with (token POs).
  change "{arch}" with (token PArch). change "{ext}" with (token PExt).
  fold (extFor os).
  rewrite (ReplaceAll_flatten PVersion) by exact Hps.
  rewrite (ReplaceAll_flatten POs) by (apply fill_plainText; assumption).
  rewrite (ReplaceAll_flatten PArch) by (repeat apply fill_plainText; assumption).
  rewrite (ReplaceAll_flatten PExt) by (repeat apply fill_plainText; assumption).
  reflexivity.
Qed.

Lemma extFor_braceFree (os : string) : braceFree (extFor os) = true.
Proof. unfold extFor. now destruct (String.eqb os "windows"). Qed.

(** C8 (as amended): for a pattern made of brace-free literal text and
    placeholders (each of the four any number of times, so in particular
    exactly once), and for version, os and arch values without an opening
    brace, the name rendered by [buildAssetName] contains none of the four
    placeholder tokens. *)
Theorem buildAssetName_no_placeholder (ps : list piece) (version os arch : string) :
  Forall plainText ps ->
  braceFree version = true -> braceFree os = true -> braceFree arch = true ->
  forall k, Contains (buildAssetName (flatten ps) version os arch) (token k) = false.
Proof.
  intros Hps Hv Ho Ha k.
  rewrite buildAssetName_flatten by assumption.
  apply braceFree_no_token, flatten_braceFree.
  - repeat apply fill_plainText; auto using extFor_braceFree.
  - intros j Hj.
    apply fill_holes in Hj as [E4 Hj]. apply fill_holes in Hj as [E3 Hj].
    apply fill_holes in Hj as [E2 Hj]. apply fill_holes in Hj as [E1 _].
    destruct j; discriminate.
Qed.

Lemma buildAssetName_no_placeholder_witness :
  let name := buildAssetName "app-{version}-{os}-{arch}{ext}" "v1.2.0" "linux" "amd64" in
  Contains name "{version}" = false /\ Contains name "{os}" = false
  /\ Contains name "{arch}" = false /\ Contains name "{ext}" = false.
Proof.
  assert (W := buildAssetName_no_placeholder
                 [Text "app-"; Hole PVersion; Text "-"; Hole POs; Text "-";
                  Hole PArch; Hole PExt]
                 "v1.2.0" "linux" "amd64"
                 ltac:(repeat constructor) eq_refl eq_refl eq_refl).
  exact (conj (W PVersion) (conj (W POs) (conj (W PArch) (W PExt)))).
Defined.

(** C8, counterexample: both patterns contain each placeholder exactly
    once, yet a placeholder token is left in the rendered name: once
    because the arch value brings one, once because removing [{ext}] joins
    the text around it into [{arch}]. *)
Lemma buildAssetName_placeholder_left :
  (Count "app-{version}-{os}-{arch}{ext}" "{version}" = 1%nat
   /\ Count "app-{version}-{os}-{arch}{ext}" "{os}" = 1%nat
   /\ Count "app-{version}-{os}-{arch}{ext}" "{arch}" = 1%nat
   /\ Count "app-{version}-{os}-{arch}{ext}" "{ext}" = 1%nat
   /\ Contains (buildAssetName "app-{version}-{os}-{arch}{ext}" "v1.2.0" "linux" "{version}")
        "{version}" = true)
  /\ (Count "{version}{os}{arch}{ar{ext}ch}" "{version}" = 1%nat
      /\ Count "{version}{os}{arch}{ar{ext}ch}" "{os}" = 1%nat
      /\ Count "{version}{os}{arch}{ar{ext}ch}" "{arch}" = 1%nat
      /\ Count "{version}{os}{arch}{ar{ext}ch}" "{ext}" = 1%nat
      /\ Contains (buildAssetName "{version}{os}{arch}{ar{ext}ch}" "v1.2.0" "linux" "amd64")
           "{arch}" = true).
Proof. repeat split; reflexivity. Qed.

(** ** Matching an asset *)

Lemma firstNamed_None (assets : list GitHubAsset) (expectedName : string) :
  (forall asset, In asset assets -> Name asset <> expectedName) ->
  firstNamed assets expectedName = None.
Proof.
  induction assets as [|asset rest IH]; simpl; intros Hno; [reflexivity |].
  destruct (String.eqb_spec (Name asset) expectedName) as [E | _].
  - exfalso. apply (Hno asset); auto.
  - apply IH. intros a Ha. apply Hno. now right.
Qed.

Lemma firstNamed_Some (assets : list GitHubAsset) (expectedName : string) (asset : GitHubAsset) :
  firstNamed assets expectedName = Some asset ->
  In asset assets /\ Name asset = expectedName.
Proof.
  induction assets as [|a rest IH]; simpl; [discriminate |].
  destruct (String.eqb_spec (Name a) expectedName) as [E | _].
  - intros [= <-]. auto.
  - intros H. destruct (IH H). auto.
Qed.

(** C4 (as amended): when no candidate is named exactly as expected,
    [findMatchingAsset] fails with an error that carries the pattern, the
    expected name, the version, the os and the arch, and nothing of the
    candidate list: any other candidate list without a match gives the
    same error. *)
Theorem findMatchingAsset_not_found
    (assets : list GitHubAsset) (pattern version os arch : string) :
  (forall asset, In asset assets ->
                 Name asset <> buildAssetName pattern version os arch) ->
  findMatchingAsset assets pattern version os arch
  = Err (Errorf
           "no asset found matching pattern: %s (expected: %s) for version %s, os %s, arch %s"
           [VStr pattern; VStr (buildAssetName pattern version os arch);
            VStr version; VStr os; VStr arch])
  /\ forall assets',
       (forall asset, In asset assets' ->
                      Name asset <> buildAssetName pattern version os arch) ->
       findMatchingAsset assets' pattern version os arch
       = findMatchingAsset assets pattern version os arch.
Proof.
  intros Hno. unfold findMatchingAsset.
  rewrite (firstNamed_None assets _ Hno). split; [reflexivity |].
  intros assets' Hno'. now rewrite (firstNamed_None assets' _ Hno').
Qed.

Lemma findMatchingAsset_not_found_witness :
  findMatchingAsset [windowsAsset] "app-{version}-{os}-{arch}{ext}" "v1.2.0" "linux" "amd64"
  = Err (Errorf
           "no asset found matching pattern: %s (expected: %s) for version %s, os %s, arch %s"
           [VStr "app-{version}-{os}-{arch}{ext}"; VStr "app-v1.2.0-linux-amd64";
            VStr "v1.2.0"; VStr "linux"; VStr "amd64"]).
Proof.
  refine (proj1 (findMatchingAsset_not_found [windowsAsset]
                   "app-{version}-{os}-{arch}{ext}" "v1.2.0" "linux" "amd64" _)).
  intros asset [<- | []]. vm_compute. discriminate.
Defined.

(** C4, counterexample: no function reads the candidate list back from the
    error, since an empty list and a list of one candidate fail alike. *)
Lemma findMatchingAsset_forgets_candidates :
  ~ exists candidatesOf : error -> list GitHubAsset,
      forall assets pattern version os arch e,
        findMatchingAsset assets pattern version os arch = Err e ->
        candidatesOf e = assets.
Proof.
  intros [candidatesOf H].
  pose (e := Errorf
               "no asset found matching pattern: %s (expected: %s) for version %s, os %s, arch %s"
               [VStr "app-{version}-{os}-{arch}{ext}"; VStr "app-v1.2.0-linux-amd64";
                VStr "v1.2.0"; VStr "linux"; VStr "amd64"]).
  assert (H1 : candidatesOf e = []).
  { apply (H [] "app-{version}-{os}-{arch}{ext}" "v1.2.0" "linux" "amd64").
    vm_compute. reflexivity. }
  assert (H2 : candidatesOf e = [windowsAsset]).
  { apply (H [windowsAsset] "app-{version}-{os}-{arch}{ext}" "v1.2.0" "linux" "amd64").
    vm_compute. reflexivity. }
  rewrite H1 in H2. discriminate H2.
Qed.

(** ** Version comparison *)

(** C7 (as amended): the comparison is a total function; it answers
    not-newer whenever the latest version, once prefixed, is not a semantic
    version, whatever the current one is; when only the current version is
    malformed and the latest is well formed, it answers newer. *)
Theorem isNewerVersion_malformed (current latest : string) :
  (Semver.IsValid (withV latest) = false -> isNewerVersion current latest = false)
  /\ (Semver.IsValid (withV current) = false -> Semver.IsValid (withV latest) = true ->
      isNewerVersion current latest = true).
Proof.
  unfold isNewerVersion, Semver.Compare, Semver.IsValid.
  destruct (Semver.parse (withV latest)), (Semver.parse (withV current));
    split; intros; try discriminate; reflexivity.
Qed.

Lemma isNewerVersion_malformed_witness :
  isNewerVersion "v1.0.0" "latest" = false /\ isNewerVersion "dev" "v1.0.0" = true.
Proof.
  split.
  - exact (proj1 (isNewerVersion_malformed "v1.0.0" "latest") eq_refl).
  - exact (proj2 (isNewerVersion_malformed "dev" "v1.0.0") eq_refl eq_refl).
Defined.

(** C7, counterexample: the current version "dev" cannot be parsed, and the
    comparison answers newer. *)
Lemma isNewerVersion_malformed_current :
  Semver.IsValid (withV "dev") = false /\ isNewerVersion "dev" "v1.0.0" = true.
Proof. split; reflexivity. Qed.

(** ** Sample runs *)

Example check_stages_the_asset :
  let w := linuxHost {| delivered := "NEWBYTES"; broken := false |} noFault parentGone in
  let '(st, r) := CheckAndPrepareUpdate w (processState installed ["/usr/local/bin/app"])
                    sampleConfig in
  fs st !! "/home/u/.cache/app/update" = Some {| content := "NEWBYTES"; perm := 493 |}
  /\ r = Ok (Some {| ui_CurrentVersion := "v1.0.0"; ui_LatestVersion := "v1.2.0";
                     ui_DownloadURL := "https://example.invalid/app-v1.2.0-linux-amd64";
                     ui_AssetName := "app-v1.2.0-linux-amd64";
                     ui_ReleaseNotes := "notes" |}).
Proof. vm_compute. split; reflexivity. Qed.

(** ** File-system calls *)

Lemma substring_all (s : string) : substring 0 (String.length s) s = s.
Proof. induction s as [|c s IH]; simpl; [reflexivity | now rewrite IH]. Qed.

Lemma os_Create_Ok (w : World) (m m1 : FS) (name : string) :
  os_Create w m name = Ok m1 ->
  m1 = <[name := {| content := ""; perm := createdMode w m name |}]> m.
Proof. unfold os_Create. destruct (fault w (SysCreate name)); congruence. Qed.

Lemma write_created (m : FS) (name data : string) (mode : Z) :
  write (<[name := {| content := ""; perm := mode |}]> m) name data
  = <[name := {| content := data; perm := mode |}]> m.
Proof. unfold write. rewrite lookup_insert_eq. simpl. apply insert_insert_eq. Qed.

(** After [os.Create], [io.Copy] leaves at [name] a prefix of the stream,
    and all of it when it succeeds. *)
Lemma io_Copy_created (w : World) (m m2 : FS) (name : string) (mode : Z)
    (src : Stream) (r : option error) :
  io_Copy w (<[name := {| content := ""; perm := mode |}]> m) name src = (m2, r) ->
  exists n : nat,
    m2 = <[name := {| content := substring 0 n (delivered src); perm := mode |}]> m
    /\ (r = None -> substring 0 n (delivered src) = delivered src /\ broken src = false).
Proof.
  unfold io_Copy.
  rewrite (write_created m name (delivered src) mode).
  destruct (write_room w name) as [room|].
  - destruct (room <? String.length (delivered src))%nat.
    + rewrite write_created. intros [= <- <-]. exists room.
      split; [reflexivity | discriminate].
    + intros [= <- <-]. exists (String.length (delivered src)).
      rewrite substring_all. split; [reflexivity |].
      destruct (broken src); [discriminate | auto].
  - intros [= <- <-]. exists (String.length (delivered src)).
    rewrite substring_all. split; [reflexivity |].
    destruct (broken src); [discriminate | auto].
Qed.

Lemma os_Chmod_Ok (w : World) (m m' : FS) (name : string) (mode : Z) :
  os_Chmod w m name mode = Ok m' ->
  exists f, m !! name = Some f /\ m' = <[name := {| content := content f; perm := mode |}]> m.
Proof.
  unfold os_Chmod. destruct (fault w (SysChmod name)); [discriminate |].
  destruct (m !! name) as [f|] eqn:E; [|discriminate].
  intros [= <-]. eauto.
Qed.

Lemma os_Stat_Ok (w : World) (m : FS) (name : string) (f : File) :
  os_Stat w m name = Ok f -> m !! name = Some f.
Proof.
  unfold os_Stat. destruct (fault w (SysStat name)); [discriminate |].
  destruct (m !! name); congruence.
Qed.

Lemma os_Open_Ok (w : World) (m : FS) (name : string) :
  os_Open w m name = None -> exists f, m !! name = Some f.
Proof.
  unfold os_Open. destruct (fault w (SysOpen name)); [discriminate |].
  destruct (m !! name); [eauto | discriminate].
Qed.

(** ** Replacing the original executable *)

(** A successful [copyFile] leaves at [dst] the mode the source had. *)
Lemma copyFile_mode (w : World) (m m' : FS) (src dst : string) :
  copyFile w m src dst = (m', None) ->
  exists srcFile dstFile,
    m !! src = Some srcFile /\ m' !! dst = Some dstFile
    /\ perm dstFile = perm srcFile
    /\ (src <> dst -> content dstFile = content srcFile)
    /\ forall p, p <> dst -> m' !! p = m !! p.
Proof.
  unfold copyFile.
  destruct (os_Open w m src) eqn:EO; [discriminate |].
  apply os_Open_Ok in EO as [srcFile Hsrc].
  destruct (os_Create w m dst) as [m1|] eqn:EC; [|discriminate].
  apply os_Create_Ok in EC as ->.
  destruct (io_Copy _ _ _ _) as [m2 [e|]] eqn:EW; [discriminate |].
  apply io_Copy_created in EW as (n & -> & Hn). destruct (Hn eq_refl) as [Hfull _].
  rewrite Hfull. clear Hn Hfull n.
  destruct (os_Stat _ _ _) as [sourceInfo|] eqn:ES; [|discriminate].
  apply os_Stat_Ok in ES.
  destruct (os_Chmod _ _ _ _) as [m3|] eqn:EH; [|discriminate].
  apply os_Chmod_Ok in EH as (f & Hf & ->).
  intros [= <-].
  rewrite lookup_insert_eq in Hf. injection Hf as <-. simpl.
  exists srcFile. eexists. split; [exact Hsrc |].
  split; [apply lookup_insert_eq |]. simpl.
  destruct (decide (dst = src)) as [-> | Hne].
  - rewrite lookup_insert_eq in ES. injection ES as <-. simpl.
    unfold createdMode. rewrite Hsrc.
    split; [reflexivity |]. split; [congruence |].
    intros p Hp. now rewrite !lookup_insert_ne by congruence.
  - rewrite lookup_insert_ne in ES by exact Hne.
    assert (sourceInfo = srcFile) as -> by congruence.
    split; [reflexivity |]. split.
    + intros _. unfold readFile. rewrite lookup_insert_ne by exact Hne. now rewrite Hsrc.
    + intros p Hp. now rewrite !lookup_insert_ne by congruence.
Qed.

(** What a successful replacement has gone through. *)
Lemma HandleUpdateMode_true (w : World) (st st' : State) :
  HandleUpdateMode w st = (st', Returns true) ->
  exists exe rest originalPath pid currentPath m',
    os_Args st = exe :: "--perform-update" :: rest
    /\ parseHandoff rest = (originalPath, pid)
    /\ Executable w = Ok currentPath
    /\ copyFile w (fs st) currentPath originalPath = (m', None)
    /\ st' = with_fs st m'.
Proof.
  unfold HandleUpdateMode.
  destruct (os_Args st) as [|exe [|arg0 rest]]; try discriminate.
  destruct (String.eqb_spec arg0 "--perform-update") as [-> | _]; [|discriminate].
  simpl negb. cbv iota.
  destruct (parseHandoff rest) as [originalPath pid] eqn:EP.
  destruct (_ || _); [discriminate |].
  unfold performUpdate.
  destruct (waitForProcessExit _ _ _); [discriminate |].
  destruct (Executable w) as [currentPath|] eqn:EX; [|discriminate].
  destruct (copyFile _ _ _ _) as [m' [e|]] eqn:EC; [discriminate |].
  intros [= <-]. exists exe, rest, originalPath, pid, currentPath, m'. auto.
Qed.

(** C1 (as amended): when the replacement child has copied itself onto the
    original executable path, the permission bits of the overwritten file
    are those of the source, the child's own executable, read from the
    source once the bytes are copied; the bits the destination had are not
    consulted. *)
Theorem HandleUpdateMode_applies_source_mode (w : World) (st st' : State) :
  HandleUpdateMode w st = (st', Returns true) ->
  exists currentPath srcFile dstFile,
    Executable w = Ok currentPath
    /\ fs st !! currentPath = Some srcFile
    /\ fs st' !! (parseHandoff (drop 2 (os_Args st))).1 = Some dstFile
    /\ perm dstFile = perm srcFile.
Proof.
  intros H.
  apply HandleUpdateMode_true in H
    as (exe & rest & originalPath & pid & currentPath & m' & -> & HP & HX & HC & ->).
  apply copyFile_mode in HC as (srcFile & dstFile & Hs & Hd & Hm & _).
  exists currentPath, srcFile, dstFile.
  change (drop 2 (exe :: "--perform-update" :: rest)) with rest.
  rewrite HP. auto.
Qed.

Lemma HandleUpdateMode_applies_source_mode_witness :
  exists dstFile,
    fs (HandleUpdateMode quietHost (processState stagedAndInstalled handoffArgs)).1
      !! "/usr/local/bin/app" = Some dstFile
    /\ perm dstFile = 493.
Proof.
  destruct (HandleUpdateMode_applies_source_mode quietHost
              (processState stagedAndInstalled handoffArgs)
              (HandleUpdateMode quietHost (processState stagedAndInstalled handoffArgs)).1)
    as (currentPath & srcFile & dstFile & HX & Hs & Hd & Hm).
  - vm_compute. reflexivity.
  - exists dstFile. split; [exact Hd |].
    injection HX as <-. vm_compute in Hs. injection Hs as <-. exact Hm.
Defined.

(** C1, counterexample: the installed executable is mode 0700, the staged
    update 0755; after the replacement the installed path is mode 0755. *)
Lemma HandleUpdateMode_loosens_mode :
  stagedAndInstalled !! "/usr/local/bin/app" = Some {| content := "OLD"; perm := 448 |}
  /\ (HandleUpdateMode quietHost (processState stagedAndInstalled handoffArgs)).2
     = Returns true
  /\ fs (HandleUpdateMode quietHost (processState stagedAndInstalled handoffArgs)).1
       !! "/usr/local/bin/app" = Some {| content := "NEW"; perm := 493 |}.
Proof. vm_compute. repeat split. Qed.

(** ** Liveness of the old process *)

(** C2 (the code at the failing input): on a POSIX platform, when the null
    signal is refused with [EPERM], so that the process exists but belongs
    to someone else, [isProcessRunning] answers [false]. *)
Theorem isProcessRunning_permission_denied (w : World) (probe : nat) (pid : Z) :
  String.eqb (GOOS w) "windows" = false ->
  FindProcess w pid = None ->
  Signal0 w probe pid = Some EPERM ->
  isProcessRunning w probe pid = false.
Proof.
  intros Hos Hfind Hsig. unfold isProcessRunning.
  now rewrite Hfind, Hos, Hsig.
Qed.

Lemma isProcessRunning_permission_denied_witness :
  isProcessRunning
    (linuxHost {| delivered := ""; broken := false |} noFault foreignInit) 0 1 = false.
Proof.
  apply isProcessRunning_permission_denied; reflexivity.
Defined.

(** On a POSIX platform the probe answers [true] exactly when the null
    signal is delivered. *)
Lemma isProcessRunning_posix (w : World) (probe : nat) (pid : Z) :
  String.eqb (GOOS w) "windows" = false ->
  FindProcess w pid = None ->
  isProcessRunning w probe pid = true <-> Signal0 w probe pid = None.
Proof.
  intros Hos Hfind. unfold isProcessRunning. rewrite Hfind, Hos. simpl.
  destruct (Signal0 w probe pid); split; congruence.
Qed.

(** ** Applying a prepared update *)

(** [ApplyUpdate] with its local names spelled out. *)
Lemma ApplyUpdate_unfold (w : World) (st : State) (config : UpdateConfig) :
  ApplyUpdate w st config
  = if IsNotExist (os_Stat w (fs st) (updatePath w (DataDir config))) then
      (st, Returns (Some (Errorf "no prepared update found at %s"
                            [VStr (updatePath w (DataDir config))])))
    else
      match cmd_Start w (handoffArgv w config) with
      | Some e =>
          (st, Returns (Some (Errorf "failed to start update process: %w"
                                [VErr (Errno e)])))
      | None => (started st (handoffArgv w config), Exits 0)
      end.
Proof. reflexivity. Qed.

(** C6 (as amended): [ApplyUpdate] returns the "no prepared update" error,
    with the process left as it was, exactly when [os.Stat] on the staging
    path fails with not-exist, which it does when there is no file there
    and the call is not refused for another reason.  When [stat] fails in
    any other way, even with no file there, or succeeds, [ApplyUpdate] goes
    on to start the staged path: if the start fails it returns that error
    and the process goes on unchanged, if it succeeds the process exits
    with status 0.  In no case does [ApplyUpdate] return without an
    error. *)
Theorem ApplyUpdate_cases (w : World) (st : State) (config : UpdateConfig) :
  let path := updatePath w (DataDir config) in
  let absent := IsNotExist (os_Stat w (fs st) path) in
  (absent = true
   <-> fault w (SysStat path) = Some ENOENT
       \/ (fault w (SysStat path) = None /\ fs st !! path = None))
  /\ (absent = true ->
      ApplyUpdate w st config
      = (st, Returns (Some (Errorf "no prepared update found at %s" [VStr path]))))
  /\ (forall e,
        absent = false ->
        cmd_Start w (handoffArgv w config) = Some e ->
        ApplyUpdate w st config
        = (st, Returns (Some (Errorf "failed to start update process: %w"
                                [VErr (Errno e)]))))
  /\ (absent = false ->
      cmd_Start w (handoffArgv w config) = None ->
      ApplyUpdate w st config = (started st (handoffArgv w config), Exits 0))
  /\ (ApplyUpdate w st config).2 <> Returns None.
Proof.
  intros path absent. rewrite ApplyUpdate_unfold. fold path. fold absent.
  split; [|repeat split].
  - subst absent. unfold os_Stat.
    destruct (fault w (SysStat path)) as [e|].
    + assert (He : IsNotExist (Err (Errno e) : result File) = true <-> e = ENOENT)
        by (destruct e; simpl; split; congruence).
      rewrite He. split.
      * intros ->. now left.
      * intros [[= ->] | [H _]]; [reflexivity | discriminate H].
    + destruct (fs st !! path) eqn:Hf; simpl.
      * split; [discriminate | intros [H | [_ H]]; discriminate H].
      * split; [intros _; now right | reflexivity].
  - now intros ->.
  - intros e -> Hstart. now rewrite Hstart.
  - intros -> Hstart. now rewrite Hstart.
  - destruct absent; [discriminate |].
    destruct (cmd_Start _ _); discriminate.
Qed.

Lemma ApplyUpdate_cases_witness :
  ApplyUpdate quietHost (processState installed userArgs) sampleConfig
  = (processState installed userArgs,
     Returns (Some (Errorf "no prepared update found at %s"
                      [VStr "/home/u/.cache/app/update"])))
  /\ ApplyUpdate noExecHost (processState stagedAndInstalled userArgs) sampleConfig
     = (processState stagedAndInstalled userArgs,
        Returns (Some (Errorf "failed to start update process: %w" [VErr (Errno EACCES)])))
  /\ ApplyUpdate quietHost (processState stagedAndInstalled userArgs) sampleConfig
     = (started (processState stagedAndInstalled userArgs) handoffArgs, Exits 0).
Proof.
  split; [|split].
  - apply (proj1 (proj2 (ApplyUpdate_cases quietHost (processState installed userArgs)
                           sampleConfig))); reflexivity.
  - apply (proj1 (proj2 (proj2 (ApplyUpdate_cases noExecHost
                                  (processState stagedAndInstalled userArgs)
                                  sampleConfig))));
      reflexivity.
  - apply (proj1 (proj2 (proj2 (proj2 (ApplyUpdate_cases quietHost
                                         (processState stagedAndInstalled userArgs)
                                         sampleConfig)))));
      reflexivity.
Defined.

(** C6, counterexample: no staged artifact exists, but the staging
    directory cannot be searched, so [stat] fails with [EACCES] rather than
    not-exist; [ApplyUpdate] does not answer "no prepared update", it goes
    on to start the missing file and reports that failure. *)
Lemma ApplyUpdate_stat_refused :
  installed !! "/home/u/.cache/app/update" = None
  /\ ApplyUpdate lockedDirHost (processState installed userArgs) sampleConfig
     = (processState installed userArgs,
        Returns (Some (Errorf "failed to start update process: %w" [VErr (Errno EACCES)])))
  /\ (ApplyUpdate lockedDirHost (processState installed userArgs) sampleConfig).2
     <> Returns (Some (Errorf "no prepared update found at %s"
                         [VStr "/home/u/.cache/app/update"])).
Proof.
  split; [reflexivity |].
  assert (E : ApplyUpdate lockedDirHost (processState installed userArgs) sampleConfig
              = (processState installed userArgs,
                 Returns (Some (Errorf "failed to start update process: %w"
                                  [VErr (Errno EACCES)]))))
    by (vm_compute; reflexivity).
  split; [exact E |]. rewrite E. discriminate.
Qed.

(** ** Staging *)

(** [downloadAsset] either leaves the file system alone and fails, or has
    a 200 response and leaves at [destPath] a prefix of its body, all of it
    on success. *)
Lemma downloadAsset_cases (w : World) (m m' : FS) (url destPath token : string)
    (r : option error) :
  downloadAsset w m url destPath token = (m', r) ->
  (m' = m /\ r <> None)
  \/ exists body n,
       client_Do w (assetRequest url token) = Response 200 body
       /\ m' = <[destPath := {| content := substring 0 n (delivered body);
                                perm := createdMode w m destPath |}]> m
       /\ (r = None ->
           substring 0 n (delivered body) = delivered body /\ broken body = false).
Proof.
  unfold downloadAsset.
  destruct (os_MkdirAll _ _); [intros [= <- <-]; left; split; [reflexivity | discriminate] |].
  destruct (NewRequest_err _ _); [intros [= <- <-]; left; split; [reflexivity | discriminate] |].
  destruct (client_Do _ _) as [e | status body] eqn:ED;
    [intros [= <- <-]; left; split; [reflexivity | discriminate] |].
  destruct (status =? 200) eqn:ES; simpl;
    [|intros [= <- <-]; left; split; [reflexivity | discriminate]].
  apply Z.eqb_eq in ES as ->.
  destruct (os_Create _ _ _) as [m1 | e] eqn:EC;
    [|intros [= <- <-]; left; split; [reflexivity | discriminate]].
  apply os_Create_Ok in EC as ->.
  destruct (io_Copy _ _ _ _) as [m2 r2] eqn:EW.
  apply io_Copy_created in EW as (n & -> & Hn).
  intros H. right. exists body, n. split; [reflexivity |].
  destruct r2 as [e|]; injection H as <- <-.
  - split; [reflexivity | discriminate].
  - split; [reflexivity | intros _; now apply Hn].
Qed.

(** Every way [CheckAndPrepareUpdate] can end, seen from the file system. *)
Lemma CheckAndPrepareUpdate_cases (w : World) (st st' : State) (config : UpdateConfig)
    (r : result (option UpdateInfo)) :
  CheckAndPrepareUpdate w st config = (st', r) ->
  let path := updatePath w (DataDir config) in
  (fs st' = fs st /\ forall info, r <> Ok (Some info))
  \/ exists url body n mode,
       client_Do w (assetRequest url (GitHubToken config)) = Response 200 body
       /\ fs st' = <[path := {| content := substring 0 n (delivered body);
                                perm := mode |}]> (fs st)
       /\ (forall info, r = Ok (Some info) ->
             url = ui_DownloadURL info
             /\ substring 0 n (delivered body) = delivered body
             /\ broken body = false)
       /\ (forall e, r = Err e -> mode = createdMode w (fs st) path).
Proof.
  intros H path. unfold CheckAndPrepareUpdate in H. fold path in H.
  destruct (validateConfig config);
    [injection H as <- <-; left; split; [reflexivity | discriminate] |].
  destruct (fetchLatestRelease w config) as [release | e];
    [|injection H as <- <-; left; split; [reflexivity | discriminate]].
  destruct (negb (isNewerVersion _ _));
    [injection H as <- <-; left; split; [reflexivity | discriminate] |].
  destruct (findMatchingAsset _ _ _ _ _) as [asset | e];
    [|injection H as <- <-; left; split; [reflexivity | discriminate]].
  destruct (downloadAsset _ _ _ _ _) as [m r1] eqn:ED.
  apply downloadAsset_cases in ED as [[-> Hr1] | (body & n & HD & -> & Hn)].
  - destruct r1 as [e|]; [|congruence].
    injection H as <- <-. left. split; [reflexivity | discriminate].
  - destruct r1 as [e|].
    + injection H as <- <-. right.
      exists (BrowserDownloadURL asset), body, n, (createdMode w (fs st) path).
      repeat split; try discriminate. exact HD.
    + destruct (Hn eq_refl) as [Hfull Hb].
      destruct (negb (String.eqb (GOOS w) "windows")).
      * destruct (os_Chmod _ _ _ _) as [m' | e] eqn:EH.
        -- apply os_Chmod_Ok in EH as (f & Hf & ->).
           rewrite lookup_insert_eq in Hf. injection Hf as <-. simpl.
           injection H as <- <-. right.
           exists (BrowserDownloadURL asset), body, n, 493.
           split; [exact HD |]. split; [simpl; apply insert_insert_eq |].
           split; [|discriminate]. intros info [= <-]. auto.
        -- injection H as <- <-. right.
           exists (BrowserDownloadURL asset), body, n, (createdMode w (fs st) path).
           repeat split; try discriminate. exact HD.
      * injection H as <- <-. right.
        exists (BrowserDownloadURL asset), body, n, (createdMode w (fs st) path).
        split; [exact HD |]. split; [reflexivity |].
        split; [|discriminate]. intros info [= <-]. auto.
Qed.






(** What a successful check has staged. *)
Lemma CheckAndPrepareUpdate_staged (w : World) (st st' : State) (config : UpdateConfig)
    (info : UpdateInfo) :
  CheckAndPrepareUpdate w st config = (st', Ok (Some info)) ->
  exists body mode,
    client_Do w (assetRequest (ui_DownloadURL info) (GitHubToken config)) = Response 200 body
    /\ broken body = false
    /\ fs st' = <[updatePath w (DataDir config) :=
                    {| content := delivered body; perm := mode |}]> (fs st).
Proof.
  intros H.
  apply CheckAndPrepareUpdate_cases in H
    as [[_ Hno] | (url & body & n & mode & HD & Hfs & Hok & _)].
  - now destruct (Hno info).
  - destruct (Hok info eq_refl) as (-> & Hfull & Hb).
    exists body, mode. rewrite Hfull in Hfs. auto.
Qed.

Lemma CheckAndPrepareUpdate_frame (w : World) (st st' : State) (config : UpdateConfig)
    (r : result (option UpdateInfo)) :
  CheckAndPrepareUpdate w st config = (st', r) ->
  forall p, p <> updatePath w (DataDir config) -> fs st' !! p = fs st !! p.
Proof.
  intros H p Hp.
  apply CheckAndPrepareUpdate_cases in H as [[-> _] | (url & body & n & mode & _ & -> & _)].
  - reflexivity.
  - now rewrite lookup_insert_ne by congruence.
Qed.

Lemma ApplyUpdate_fs (w : World) (st : State) (config : UpdateConfig) :
  fs (ApplyUpdate w st config).1 = fs st.
Proof.
  rewrite ApplyUpdate_unfold. destruct (IsNotExist _); [reflexivity |].
  now destruct (cmd_Start _ _).
Qed.

Lemma CleanupUpdate_fs (w : World) (st : State) (dataDir : string) :
  fs (CleanupUpdate w st dataDir).1 = fs st
  \/ fs (CleanupUpdate w st dataDir).1 = delete (updatePath w dataDir) (fs st).
Proof.
  unfold CleanupUpdate. destruct (IsNotExist _); [now left |].
  unfold os_Remove. destruct (fault w _); [now left |].
  destruct (fs st !! _); [now right | now left].
Qed.

(** C9: the staged artifact lives at one path, the staging directory
    joined with "update" and the platform's executable extension, in which
    no version takes part.  [CheckAndPrepareUpdate] changes no other path,
    [ApplyUpdate] changes no file and [CleanupUpdate] at most removes that
    one; and two successful checks in a row over the same staging
    directory leave, next to the files that were there before, the one
    staged file, holding the bytes of the second download. *)
Theorem staged_artifact_single :
  (forall w dataDir,
     updatePath w dataDir
     = filepath_Join w dataDir
         ("update" +:+ (if String.eqb (GOOS w) "windows" then ".exe" else "")))
  /\ (forall w st st' config r,
        CheckAndPrepareUpdate w st config = (st', r) ->
        forall p, p <> updatePath w (DataDir config) -> fs st' !! p = fs st !! p)
  /\ (forall w st config, fs (ApplyUpdate w st config).1 = fs st)
  /\ (forall w st dataDir,
        fs (CleanupUpdate w st dataDir).1 = fs st
        \/ fs (CleanupUpdate w st dataDir).1 = delete (updatePath w dataDir) (fs st))
  /\ (forall w1 w2 st0 st1 st2 c1 c2 info1 info2,
        updatePath w1 (DataDir c1) = updatePath w2 (DataDir c2) ->
        CheckAndPrepareUpdate w1 st0 c1 = (st1, Ok (Some info1)) ->
        CheckAndPrepareUpdate w2 st1 c2 = (st2, Ok (Some info2)) ->
        exists body mode,
          client_Do w2 (assetRequest (ui_DownloadURL info2) (GitHubToken c2))
          = Response 200 body
          /\ broken body = false
          /\ fs st2 = <[updatePath w2 (DataDir c2) :=
                          {| content := delivered body; perm := mode |}]> (fs st0)
          /\ dom (fs st2) = {[updatePath w2 (DataDir c2)]} ∪ dom (fs st0)).
Proof.
  split; [reflexivity |].
  split; [exact CheckAndPrepareUpdate_frame |].
  split; [exact ApplyUpdate_fs |].
  split; [exact CleanupUpdate_fs |].
  intros w1 w2 st0 st1 st2 c1 c2 info1 info2 Hpath H1 H2.
  apply CheckAndPrepareUpdate_staged in H1 as (body1 & mode1 & _ & _ & Hfs1).
  apply CheckAndPrepareUpdate_staged in H2 as (body2 & mode2 & HD & Hb & Hfs2).
  exists body2, mode2. split; [exact HD |]. split; [exact Hb |].
  rewrite Hfs1, Hpath in Hfs2. rewrite insert_insert_eq in Hfs2.
  split; [exact Hfs2 |]. rewrite Hfs2. apply dom_insert_L.
Qed.

Lemma staged_artifact_single_witness :
  exists st1 st2 info body mode,
    CheckAndPrepareUpdate firstHost (processState ∅ userArgs) sampleConfig
    = (st1, Ok (Some info))
    /\ CheckAndPrepareUpdate secondHost st1 sampleConfig = (st2, Ok (Some info))
    /\ delivered body = "SECOND"
    /\ fs st2 = <["/home/u/.cache/app/update" :=
                    {| content := delivered body; perm := mode |}]> ∅
    /\ dom (fs st2) = {["/home/u/.cache/app/update"]} ∪ dom (∅ : FS).
Proof.
  pose (st1 := processState
                 {[ "/home/u/.cache/app/update" := {| content := "FIRST"; perm := 493 |} ]}
                 userArgs).
  pose (st2 := processState
                 {[ "/home/u/.cache/app/update" := {| content := "SECOND"; perm := 493 |} ]}
                 userArgs).
  assert (E1 : CheckAndPrepareUpdate firstHost (processState ∅ userArgs) sampleConfig
               = (st1, Ok (Some sampleInfo))) by (vm_compute; reflexivity).
  assert (E2 : CheckAndPrepareUpdate secondHost st1 sampleConfig
               = (st2, Ok (Some sampleInfo))) by (vm_compute; reflexivity).
  destruct staged_artifact_single as (_ & _ & _ & _ & Htwice).
  destruct (Htwice firstHost secondHost _ _ _ sampleConfig sampleConfig _ _ eq_refl E1 E2)
    as (body & mode & HD & _ & Hfs & Hdom).
  exists st1, st2, sampleInfo, body, mode.
  split; [exact E1 |]. split; [exact E2 |].
  split; [vm_compute in HD; now injection HD as <- |].
  split; [exact Hfs | exact Hdom].
Defined.

(** ** The handoff arguments *)

Lemma TrimPrefix_app (p v : string) : TrimPrefix (p +:+ v) p = v.
Proof.
  unfold TrimPrefix. rewrite HasPrefix_app.
  induction p as [|c p IH]; simpl.
  - rewrite Nat.sub_0_r. apply substring_all.
  - exact IH.
Qed.

Lemma parseArg_pid (acc : string * Z) (v : string) :
  parseArg acc ("--pid=" +:+ v)
  = match Strconv.Atoi v with
    | Some pid => (acc.1, pid)
    | None => acc
    end.
Proof.
  destruct acc as [p n]. unfold parseArg.
  replace (HasPrefix ("--pid=" +:+ v) "--original-path=") with false by reflexivity.
  rewrite HasPrefix_app, TrimPrefix_app.
  now destruct (Strconv.Atoi v).
Qed.




(** [HandleUpdateMode] once the marker is seen and the handoff parsed. *)
Lemma HandleUpdateMode_marker (w : World) (st : State) (exe : string) (rest : list string) :
  os_Args st = exe :: "--perform-update" :: rest ->
  HandleUpdateMode w st
  = if String.eqb (parseHandoff rest).1 "" || ((parseHandoff rest).2 =? 0)
    then (invalidArguments st (parseHandoff rest).1 (parseHandoff rest).2, Exits 1)
    else performUpdate w st (parseHandoff rest).1 (parseHandoff rest).2.
Proof.
  intros E. unfold HandleUpdateMode. rewrite E. simpl negb. cbv iota.
  now destruct (parseHandoff rest) as [originalPath pidToWait].
Qed.





(** ** The handoff carries no arguments of the old process *)








(** * Further properties of the code *)

(** ** Cleaning up, staging and applying *)

Lemma CleanupUpdate_done (w : World) (st st' : State) (dataDir : string) :
  fault w (SysStat (updatePath w dataDir)) = None ->
  CleanupUpdate w st dataDir = (st', None) ->
  fs st' !! updatePath w dataDir = None
  /\ (forall p, p <> updatePath w dataDir -> fs st' !! p = fs st !! p)
  /\ CleanupUpdate w st' dataDir = (st', None).
Proof.
  intros Hstat. unfold CleanupUpdate, os_Stat. rewrite Hstat.
  destruct (fs st !! updatePath w dataDir) as [f|] eqn:Hf; simpl.
  - unfold os_Remove. destruct (fault w (SysRemove _)); [discriminate |].
    rewrite Hf. intros [= <-]. simpl. rewrite lookup_delete_eq. simpl.
    split; [reflexivity |]. split; [|reflexivity].
    intros p Hp. apply lookup_delete_ne. congruence.
  - intros [= <-]. rewrite Hf. simpl. auto.
Qed.

(** [CleanupUpdate] that reports success has left no staged file, has kept
    every other file, and can be repeated with the same answer and no
    further change. *)
Theorem CleanupUpdate_idempotent (w : World) (st st' : State) (dataDir : string) :
  fault w (SysStat (updatePath w dataDir)) = None ->
  CleanupUpdate w st dataDir = (st', None) ->
  fs st' !! updatePath w dataDir = None
  /\ (forall p, p <> updatePath w dataDir -> fs st' !! p = fs st !! p)
  /\ CleanupUpdate w st' dataDir = (st', None).
Proof. apply CleanupUpdate_done. Qed.

Lemma CleanupUpdate_idempotent_witness :
  fs (CleanupUpdate quietHost (processState stagedAndInstalled userArgs)
        "/home/u/.cache/app").1 !! "/home/u/.cache/app/update" = None.
Proof.
  destruct (CleanupUpdate quietHost (processState stagedAndInstalled userArgs)
              "/home/u/.cache/app") as [st' r] eqn:E.
  assert (r = None) as -> by (vm_compute in E; now injection E as _ <-).
  exact (proj1 (CleanupUpdate_idempotent quietHost _ st' "/home/u/.cache/app" eq_refl E)).
Defined.

(** Once [CleanupUpdate] has succeeded, [ApplyUpdate] on the same staging
    directory finds nothing prepared: it returns that error, starts no
    process and does not exit. *)
Theorem ApplyUpdate_after_cleanup (w : World) (st st' : State) (config : UpdateConfig) :
  fault w (SysStat (updatePath w (DataDir config))) = None ->
  CleanupUpdate w st (DataDir config) = (st', None) ->
  ApplyUpdate w st' config
  = (st', Returns (Some (Errorf "no prepared update found at %s"
                           [VStr (updatePath w (DataDir config))]))).
Proof.
  intros Hstat Hclean.
  destruct (CleanupUpdate_done w st st' _ Hstat Hclean) as (Hnone & _ & _).
  rewrite ApplyUpdate_unfold. unfold os_Stat. now rewrite Hstat, Hnone.
Qed.

Lemma ApplyUpdate_after_cleanup_witness :
  exists st',
    CleanupUpdate quietHost (processState stagedAndInstalled userArgs) "/home/u/.cache/app"
    = (st', None)
    /\ ApplyUpdate quietHost st' sampleConfig
       = (st', Returns (Some (Errorf "no prepared update found at %s"
                                [VStr "/home/u/.cache/app/update"]))).
Proof.
  exists (processState installed userArgs).
  assert (E : CleanupUpdate quietHost (processState stagedAndInstalled userArgs)
                (DataDir sampleConfig)
              = (processState installed userArgs, None)) by (vm_compute; reflexivity).
  split; [exact E |].
  exact (ApplyUpdate_after_cleanup quietHost _ _ sampleConfig eq_refl E).
Defined.

(** After a check that staged an update, [ApplyUpdate] never answers
    "no prepared update": it starts the staged file with the handoff
    arguments and exits with status 0, or it reports that the start
    failed and leaves the process as it was. *)
Theorem ApplyUpdate_after_check (w : World) (st st' : State) (config : UpdateConfig)
    (info : UpdateInfo) :
  fault w (SysStat (updatePath w (DataDir config))) = None ->
  CheckAndPrepareUpdate w st config = (st', Ok (Some info)) ->
  ApplyUpdate w st' config = (started st' (handoffArgv w config), Exits 0)
  \/ exists e,
       cmd_Start w (handoffArgv w config) = Some e
       /\ ApplyUpdate w st' config
          = (st', Returns (Some (Errorf "failed to start update process: %w"
                                   [VErr (Errno e)]))).
Proof.
  intros Hstat Hcheck.
  apply CheckAndPrepareUpdate_staged in Hcheck as (body & mode & _ & _ & Hfs).
  rewrite ApplyUpdate_unfold. unfold os_Stat. rewrite Hstat, Hfs, lookup_insert_eq.
  simpl. destruct (cmd_Start w (handoffArgv w config)) as [e|]; [right | left]; eauto.
Qed.

Lemma ApplyUpdate_after_check_witness :
  exists st',
    CheckAndPrepareUpdate quietHost (processState installed userArgs) sampleConfig
    = (st', Ok (Some sampleInfo))
    /\ ApplyUpdate quietHost st' sampleConfig = (started st' handoffArgs, Exits 0).
Proof.
  pose (st' := processState
                 (<[ "/home/u/.cache/app/update" := {| content := "NEW"; perm := 493 |} ]>
                    installed) userArgs).
  assert (E : CheckAndPrepareUpdate quietHost (processState installed userArgs) sampleConfig
              = (st', Ok (Some sampleInfo))) by (vm_compute; reflexivity).
  exists st'. split; [exact E |].
  destruct (ApplyUpdate_after_check quietHost _ _ sampleConfig sampleInfo eq_refl E)
    as [H | (e & He & _)]; [exact H | discriminate He].
Defined.

(** ** Checking for an update *)

Lemma validateConfig_cases (config : UpdateConfig) :
  (validateConfig config = None /\ ~ requiredMissing config)
  \/ (exists e, validateConfig config = Some e /\ requiredMissing config).
Proof.
  unfold validateConfig, requiredMissing.
  destruct (String.eqb_spec (GitHubOwner config) ""); [right; eauto 8 |].
  destruct (String.eqb_spec (GitHubRepo config) ""); [right; eauto 8 |].
  destruct (String.eqb_spec (CurrentVersion config) ""); [right; eauto 8 |].
  destruct (String.eqb_spec (DataDir config) ""); [right; eauto 10 |].
  destruct (String.eqb_spec (ExecutablePath config) ""); [right; eauto 10 |].
  destruct (String.eqb_spec (AssetPattern config) ""); [right; eauto 12 |].
  left. split; [reflexivity | tauto].
Qed.

(** [CheckAndPrepareUpdate] fails with "invalid config", before any request
    is made and with the state untouched, exactly when one of the six
    required fields is empty; the token, [OS] and [Arch] may be empty. *)
Theorem CheckAndPrepareUpdate_invalid_config (w : World) (st : State) (config : UpdateConfig) :
  (exists e, CheckAndPrepareUpdate w st config
             = (st, Err (Errorf "invalid config: %w" [VErr e])))
  <-> requiredMissing config.
Proof.
  destruct (validateConfig_cases config) as [[EV Hok] | (e0 & EV & Hmiss)].
  - split; [|tauto]. intros [e H]. exfalso.
    unfold CheckAndPrepareUpdate in H. rewrite EV in H.
    destruct (fetchLatestRelease w config); [|discriminate H].
    destruct (negb _); [discriminate H |].
    destruct (findMatchingAsset _ _ _ _ _); [|discriminate H].
    destruct (downloadAsset _ _ _ _ _) as [m [e1|]]; [discriminate H |].
    destruct (negb _); [|discriminate H].
    destruct (os_Chmod _ _ _ _); discriminate H.
  - split; [tauto |]. intros _. exists e0.
    unfold CheckAndPrepareUpdate. now rewrite EV.
Qed.

(** An update is reported only for a release whose tag is newer than the
    current version and that has an asset named exactly as the pattern
    renders for the target platform (the configured [OS] and [Arch], else
    the running ones); the report repeats the current version, the tag,
    that asset's URL and name, and the release body. *)
Theorem CheckAndPrepareUpdate_reports (w : World) (st st' : State) (config : UpdateConfig)
    (info : UpdateInfo) :
  CheckAndPrepareUpdate w st config = (st', Ok (Some info)) ->
  exists release asset,
    fetchLatestRelease w config = Ok release
    /\ isNewerVersion (CurrentVersion config) (TagName release) = true
    /\ In asset (Assets release)
    /\ Name asset
       = buildAssetName (AssetPattern config) (TagName release)
           (targetOS w config) (targetArch w config)
    /\ info = {| ui_CurrentVersion := CurrentVersion config;
                 ui_LatestVersion := TagName release;
                 ui_DownloadURL := BrowserDownloadURL asset;
                 ui_AssetName := Name asset;
                 ui_ReleaseNotes := Body release |}.
Proof.
  unfold CheckAndPrepareUpdate. fold (targetOS w config). fold (targetArch w config).
  destruct (validateConfig config); [discriminate |].
  destruct (fetchLatestRelease w config) as [release|]; [|discriminate].
  destruct (isNewerVersion _ _) eqn:EN; [|discriminate]. simpl negb. cbv iota.
  unfold findMatchingAsset.
  destruct (firstNamed _ _) as [asset|] eqn:EF; [|discriminate].
  apply firstNamed_Some in EF as [Hin Hname].
  destruct (downloadAsset _ _ _ _ _) as [m [e|]]; [discriminate |].
  intros H. exists release, asset.
  repeat (split; [first [reflexivity | assumption] |]).
  destruct (negb _).
  - destruct (os_Chmod _ _ _ _); [|discriminate H]. now injection H as _ <-.
  - now injection H as _ <-.
Qed.

Lemma CheckAndPrepareUpdate_reports_witness :
  exists release asset,
    fetchLatestRelease quietHost sampleConfig = Ok release
    /\ isNewerVersion "v1.0.0" (TagName release) = true
    /\ In asset (Assets release)
    /\ Name asset = "app-v1.2.0-linux-amd64".
Proof.
  destruct (CheckAndPrepareUpdate_reports quietHost (processState installed userArgs)
              (CheckAndPrepareUpdate quietHost (processState installed userArgs)
                 sampleConfig).1 sampleConfig sampleInfo)
    as (release & asset & HF & HN & HI & HA & _).
  - vm_compute. reflexivity.
  - exists release, asset. split; [exact HF |]. split; [exact HN |].
    split; [exact HI |]. rewrite HA.
    vm_compute in HF. injection HF as <-. vm_compute. reflexivity.
Defined.

(** When the check answers "no update", the configuration was valid, the
    latest release was fetched, its tag is not newer than the current
    version, and nothing at all has changed. *)
Theorem CheckAndPrepareUpdate_no_update (w : World) (st st' : State) (config : UpdateConfig) :
  CheckAndPrepareUpdate w st config = (st', Ok None) ->
  st' = st
  /\ ~ requiredMissing config
  /\ exists release,
       fetchLatestRelease w config = Ok release
       /\ isNewerVersion (CurrentVersion config) (TagName release) = false.
Proof.
  unfold CheckAndPrepareUpdate.
  destruct (validateConfig_cases config) as [[-> Hok] | (e0 & -> & _)]; [|discriminate].
  destruct (fetchLatestRelease w config) as [release|]; [|discriminate].
  destruct (isNewerVersion _ _) eqn:EN; simpl negb; cbv iota.
  - destruct (findMatchingAsset _ _ _ _ _); [|discriminate].
    destruct (downloadAsset _ _ _ _ _) as [m [e|]]; [discriminate |].
    destruct (negb _); [|discriminate].
    destruct (os_Chmod _ _ _ _); discriminate.
  - intros [= <-]. eauto.
Qed.

Lemma CheckAndPrepareUpdate_no_update_witness :
  exists release,
    fetchLatestRelease quietHost upToDateConfig = Ok release
    /\ isNewerVersion "v1.2.0" (TagName release) = false.
Proof.
  assert (E : CheckAndPrepareUpdate quietHost (processState installed userArgs)
                upToDateConfig
              = (processState installed userArgs, Ok None)) by (vm_compute; reflexivity).
  exact (proj2 (proj2 (CheckAndPrepareUpdate_no_update quietHost _ _ upToDateConfig E))).
Defined.

Lemma CheckAndPrepareUpdate_staged_file (w : World) (st st' : State)
    (config : UpdateConfig) (info : UpdateInfo) :
  CheckAndPrepareUpdate w st config = (st', Ok (Some info)) ->
  exists body,
    client_Do w (assetRequest (ui_DownloadURL info) (GitHubToken config)) = Response 200 body
    /\ broken body = false
    /\ fs st' !! updatePath w (DataDir config)
       = Some {| content := delivered body;
                 perm := if String.eqb (GOOS w) "windows"
                         then createdMode w (fs st) (updatePath w (DataDir config))
                         else 493 |}.
Proof.
  unfold CheckAndPrepareUpdate.
  destruct (validateConfig config); [discriminate |].
  destruct (fetchLatestRelease w config) as [release|]; [|discriminate].
  destruct (negb (isNewerVersion _ _)); [discriminate |].
  destruct (findMatchingAsset _ _ _ _ _) as [asset|]; [|discriminate].
  destruct (downloadAsset _ _ _ _ _) as [m [e|]] eqn:ED; [discriminate |].
  apply downloadAsset_cases in ED as [[_ Hr] | (body & n & HD & -> & Hn)]; [congruence |].
  destruct (Hn eq_refl) as [Hfull Hb]. rewrite Hfull.
  destruct (String.eqb (GOOS w) "windows"); simpl negb; cbv iota.
  - intros [= <- <-]. exists body. simpl. rewrite lookup_insert_eq. auto.
  - destruct (os_Chmod _ _ _ _) as [m'|] eqn:EH; [|discriminate].
    apply os_Chmod_Ok in EH as (f & Hf & ->).
    rewrite lookup_insert_eq in Hf. injection Hf as <-.
    intros [= <- <-]. exists body. simpl. rewrite lookup_insert_eq. auto.
Qed.

(** Round trip of staging: after a successful check the staged path holds
    exactly the bytes of the 200 response to the asset request, read to
    the end without error; its mode is 0755 off Windows, and on Windows
    the mode it was created with. *)
Theorem CheckAndPrepareUpdate_round_trip (w : World) (st st' : State)
    (config : UpdateConfig) (info : UpdateInfo) :
  CheckAndPrepareUpdate w st config = (st', Ok (Some info)) ->
  exists body,
    client_Do w (assetRequest (ui_DownloadURL info) (GitHubToken config)) = Response 200 body
    /\ broken body = false
    /\ fs st' !! updatePath w (DataDir config)
       = Some {| content := delivered body;
                 perm := if String.eqb (GOOS w) "windows"
                         then createdMode w (fs st) (updatePath w (DataDir config))
                         else 493 |}.
Proof. apply CheckAndPrepareUpdate_staged_file. Qed.

Lemma CheckAndPrepareUpdate_round_trip_witness :
  fs (CheckAndPrepareUpdate quietHost (processState installed userArgs) sampleConfig).1
    !! "/home/u/.cache/app/update" = Some {| content := "NEW"; perm := 493 |}.
Proof.
  destruct (CheckAndPrepareUpdate_round_trip quietHost (processState installed userArgs)
              (CheckAndPrepareUpdate quietHost (processState installed userArgs)
                 sampleConfig).1 sampleConfig sampleInfo)
    as (body & HD & _ & Hfs).
  - vm_compute. reflexivity.
  - vm_compute in HD. injection HD as <-. exact Hfs.
Defined.

(** ** Waiting for the old process *)

Lemma pollUntilExit_None (w : World) (pid timeout : Z) (n probe : nat) :
  pollUntilExit w pid timeout n probe = None
  <-> exists k, (probe <= k < probe + n)%nat /\ isProcessRunning w k pid = false.
Proof.
  revert probe. induction n as [|n IH]; intros probe; cbn [pollUntilExit].
  - split; [discriminate | intros (k & Hk & _); lia].
  - destruct (isProcessRunning w probe pid) eqn:E; simpl negb; cbv iota.
    + rewrite IH. split; intros (k & Hk & Hdead).
      * exists k. split; [lia | exact Hdead].
      * exists k. split; [|exact Hdead].
        destruct (Nat.eq_dec k probe) as [-> | Hne]; [congruence | lia].
    + split; [|reflexivity]. intros _. exists probe. split; [lia | exact E].
Qed.

Lemma pollUntilExit_Some (w : World) (pid timeout : Z) (n probe : nat) (e : error) :
  pollUntilExit w pid timeout n probe = Some e ->
  e = Errorf "timeout waiting for process %d to exit after %s" [VInt pid; VInt timeout].
Proof.
  revert probe. induction n as [|n IH]; intros probe; cbn [pollUntilExit].
  - congruence.
  - destruct (negb _); [discriminate | apply IH].
Qed.

(** [waitForProcessExit] returns nil exactly when one of the probes made
    before the deadline, one per ticker delivery, finds the process not
    running; otherwise its error is the timeout error naming the pid and
    the timeout.  With no delivery before the deadline it times out
    without probing. *)
Theorem waitForProcessExit_spec (w : World) (pid timeout : Z) :
  (waitForProcessExit w pid timeout = None
   <-> exists k, (k < ticks w timeout)%nat /\ isProcessRunning w k pid = false)
  /\ (forall e,
        waitForProcessExit w pid timeout = Some e ->
        e = Errorf "timeout waiting for process %d to exit after %s"
              [VInt pid; VInt timeout]).
Proof.
  unfold waitForProcessExit. split.
  - rewrite pollUntilExit_None. split; intros (k & Hk & Hdead); exists k; split;
      first [lia | exact Hdead].
  - intros e. apply pollUntilExit_Some.
Qed.

(** ** Entering update mode *)

Lemma performUpdate_outcome (w : World) (st : State) (originalPath : string) (pid : Z) :
  ((performUpdate w st originalPath pid).2 = Exits 1
   /\ exists format args,
        (performUpdate w st originalPath pid).1
        = Fprintf_stderr (with_fs st (fs (performUpdate w st originalPath pid).1))
            format args)
  \/ ((performUpdate w st originalPath pid).2 = Returns true
      /\ (performUpdate w st originalPath pid).1
         = with_fs st (fs (performUpdate w st originalPath pid).1)).
Proof.
  unfold performUpdate.
  destruct (waitForProcessExit _ _ _); [left; simpl; eauto |].
  destruct (Executable w); [|left; simpl; eauto].
  destruct (copyFile _ _ _ _) as [m [e|]]; [left | right]; simpl; eauto.
Qed.

(** [HandleUpdateMode] returns false exactly when the first argument after
    the program name is missing or is not [--perform-update]; the marker
    anywhere else is ignored, and the state is then left untouched. *)
Theorem HandleUpdateMode_false_iff (w : World) (st : State) :
  ((HandleUpdateMode w st).2 = Returns false
   <-> exists exe args,
         os_Args st = exe :: args /\ head args <> Some "--perform-update")
  /\ ((HandleUpdateMode w st).2 = Returns false -> (HandleUpdateMode w st).1 = st).
Proof.
  unfold HandleUpdateMode.
  destruct (os_Args st) as [|exe [|arg0 rest]]; simpl.
  - split; [|discriminate]. split; [discriminate | intros (? & ? & ? & _); discriminate].
  - split; [|reflexivity]. split; [|reflexivity]. intros _. exists exe, []. now split.
  - destruct (String.eqb_spec arg0 "--perform-update") as [-> | Hne]; simpl.
    + assert (Hnot : (let '(originalPath, pidToWait) := parseHandoff rest in
                      if String.eqb originalPath "" || (pidToWait =? 0)
                      then (Fprintf_stderr st
                              "Invalid update mode arguments: original-path=%q, pid=%d\n"
                              [VStr originalPath; VInt pidToWait], Exits 1)
                      else performUpdate w st originalPath pidToWait).2
                     <> Returns false).
      { destruct (parseHandoff rest) as [p n]. destruct (_ || _); [discriminate |].
        destruct (performUpdate_outcome w st p n) as [[-> _] | [-> _]]; discriminate. }
      split; [|intros H; now destruct Hnot].
      split; [intros H; now destruct Hnot |].
      intros (exe' & args & [= _ <-] & Hhead). now destruct Hhead.
    + split; [|reflexivity]. split; [|reflexivity]. intros _.
      exists exe, (arg0 :: rest). split; [reflexivity |]. simpl. congruence.
Qed.

(** Whenever [HandleUpdateMode] ends the process, the status is 1 and
    exactly one line has been added to the diagnostic stream; when it
    returns, nothing has been written there. *)
Theorem HandleUpdateMode_diagnostics (w : World) (st : State) :
  (forall code,
     (HandleUpdateMode w st).2 = Exits code ->
     code = 1 /\ exists line, stderr (HandleUpdateMode w st).1 = stderr st ++ [line])
  /\ (forall b,
        (HandleUpdateMode w st).2 = Returns b ->
        stderr (HandleUpdateMode w st).1 = stderr st).
Proof.
  assert (Hquiet : forall o : outcome bool,
            (forall code, o <> Exits code) ->
            (forall code, (st, o).2 = Exits code ->
                          code = 1 /\ exists line, stderr (st, o).1 = stderr st ++ [line])
            /\ (forall b, (st, o).2 = Returns b -> stderr (st, o).1 = stderr st)).
  { intros o Ho. split; [intros code H; now destruct (Ho code) |]. reflexivity. }
  assert (Hloud : forall m format args,
            (forall code,
               (Fprintf_stderr (with_fs st m) format args, Exits 1 : outcome bool).2
               = Exits code ->
               code = 1
               /\ exists line,
                    stderr (Fprintf_stderr (with_fs st m) format args,
                            Exits 1 : outcome bool).1 = stderr st ++ [line])
            /\ (forall b,
                  (Fprintf_stderr (with_fs st m) format args, Exits 1 : outcome bool).2
                  = Returns b ->
                  stderr (Fprintf_stderr (with_fs st m) format args,
                          Exits 1 : outcome bool).1 = stderr st)).
  { intros m format args. simpl. split; [intros code [= <-]; eauto | discriminate]. }
  unfold HandleUpdateMode.
  destruct (os_Args st) as [|exe [|arg0 rest]].
  - apply Hquiet. discriminate.
  - apply Hquiet. discriminate.
  - destruct (negb _); [apply Hquiet; discriminate |].
    destruct (parseHandoff rest) as [p n].
    destruct (_ || _); [apply (Hloud (fs st)) |].
    unfold performUpdate.
    destruct (waitForProcessExit _ _ _); [apply (Hloud (fs st)) |].
    destruct (Executable w); [|apply (Hloud (fs st))].
    destruct (copyFile _ _ _ _) as [m [e|]]; [apply Hloud |].
    simpl. split; [discriminate | reflexivity].
Qed.

(** In update mode, as long as every probe before the deadline finds the
    old process running, the process ends with status 1 and no file has
    been touched: the original executable is never written while the
    probe still reports its process. *)
Theorem HandleUpdateMode_parent_alive (w : World) (st : State) (exe : string)
    (rest : list string) :
  os_Args st = exe :: "--perform-update" :: rest ->
  (forall k, (k < ticks w thirtySeconds)%nat ->
             isProcessRunning w k (parseHandoff rest).2 = true) ->
  (HandleUpdateMode w st).2 = Exits 1
  /\ fs (HandleUpdateMode w st).1 = fs st.
Proof.
  intros Hargs Halive. rewrite (HandleUpdateMode_marker w st exe rest Hargs).
  destruct (_ || _); [now split |].
  unfold performUpdate.
  destruct (waitForProcessExit w _ thirtySeconds) as [e|] eqn:EW; [now split |].
  unfold waitForProcessExit in EW.
  apply pollUntilExit_None in EW as (k & Hk & Hdead).
  rewrite (Halive k) in Hdead by lia. discriminate.
Qed.

Lemma HandleUpdateMode_parent_alive_witness :
  (HandleUpdateMode stuckHost (processState stagedAndInstalled handoffArgs)).2 = Exits 1
  /\ fs (HandleUpdateMode stuckHost (processState stagedAndInstalled handoffArgs)).1
     = stagedAndInstalled.
Proof.
  apply (HandleUpdateMode_parent_alive stuckHost
           (processState stagedAndInstalled handoffArgs)
           "/home/u/.cache/app/update"
           ["--original-path=/usr/local/bin/app"; "--pid=4242"] eq_refl).
  intros k _. reflexivity.
Defined.

(** A replacement that succeeds has put the file of the running
    executable, bytes and mode, at the original path (when the two paths
    differ), has left every other path as it was, and has written no
    diagnostic. *)
Theorem HandleUpdateMode_replaces (w : World) (st st' : State) :
  HandleUpdateMode w st = (st', Returns true) ->
  exists currentPath srcFile,
    Executable w = Ok currentPath
    /\ fs st !! currentPath = Some srcFile
    /\ (currentPath <> (parseHandoff (drop 2 (os_Args st))).1 ->
        fs st' !! (parseHandoff (drop 2 (os_Args st))).1 = Some srcFile)
    /\ (forall p, p <> (parseHandoff (drop 2 (os_Args st))).1 ->
                  fs st' !! p = fs st !! p)
    /\ stderr st' = stderr st.
Proof.
  intros H.
  apply HandleUpdateMode_true in H
    as (exe & rest & originalPath & pid & currentPath & m' & -> & HP & HX & HC & ->).
  apply copyFile_mode in HC as (srcFile & dstFile & Hs & Hd & Hm & Hc & Hframe).
  exists currentPath, srcFile.
  change (drop 2 (exe :: "--perform-update" :: rest)) with rest. rewrite HP. simpl.
  split; [exact HX |]. split; [exact Hs |]. split; [|split; [exact Hframe | reflexivity]].
  intros Hne. rewrite Hd. f_equal.
  specialize (Hc Hne). destruct dstFile, srcFile. simpl in *. congruence.
Qed.

Lemma HandleUpdateMode_replaces_witness :
  fs (HandleUpdateMode quietHost (processState stagedAndInstalled handoffArgs)).1
    !! "/usr/local/bin/app" = Some {| content := "NEW"; perm := 493 |}.
Proof.
  destruct (HandleUpdateMode_replaces quietHost
              (processState stagedAndInstalled handoffArgs)
              (HandleUpdateMode quietHost (processState stagedAndInstalled handoffArgs)).1)
    as (currentPath & srcFile & HX & Hs & Hd & _).
  - vm_compute. reflexivity.
  - injection HX as <-. vm_compute in Hs. injection Hs as <-.
    apply Hd. discriminate.
Defined.

(** ** Copying a file *)

(** When the source cannot be opened, [copyFile] fails before it creates
    or truncates the destination: no file is changed. *)
Theorem copyFile_missing_source (w : World) (m : FS) (src dst : string) :
  m !! src = None ->
  exists e, copyFile w m src dst = (m, Some e).
Proof.
  intros Hnone. unfold copyFile, os_Open. rewrite Hnone.
  destruct (fault w (SysOpen src)); eauto.
Qed.

Lemma copyFile_missing_source_witness :
  exists e,
    copyFile quietHost installed "/home/u/.cache/app/update" "/usr/local/bin/app"
    = (installed, Some e).
Proof. apply copyFile_missing_source. reflexivity. Defined.

(** Copying a file onto itself empties it: the destination is truncated
    before the source is read.  The mode is kept. *)
Theorem copyFile_same_path (w : World) (m m' : FS) (path : string) :
  copyFile w m path path = (m', None) ->
  exists f,
    m !! path = Some f
    /\ m' = <[path := {| content := ""; perm := perm f |}]> m.
Proof.
  unfold copyFile.
  destruct (os_Open w m path) eqn:EO; [discriminate |].
  apply os_Open_Ok in EO as [f Hf].
  destruct (os_Create w m path) as [m1|] eqn:EC; [|discriminate].
  apply os_Create_Ok in EC as ->.
  unfold createdMode. rewrite Hf.
  unfold readFile. rewrite lookup_insert_eq. simpl.
  destruct (io_Copy _ _ _ _) as [m2 [e|]] eqn:EW; [discriminate |].
  apply io_Copy_created in EW as (n & -> & _). cbn [delivered].
  replace (substring 0 n "") with EmptyString by (now destruct n).
  destruct (os_Stat _ _ _) as [info|] eqn:ES; [|discriminate].
  apply os_Stat_Ok in ES. rewrite lookup_insert_eq in ES. injection ES as <-.
  destruct (os_Chmod _ _ _ _) as [m3|] eqn:EH; [|discriminate].
  apply os_Chmod_Ok in EH as (g & Hg & ->).
  rewrite lookup_insert_eq in Hg. injection Hg as <-. simpl.
  intros [= <-]. exists f. split; [reflexivity |]. apply insert_insert_eq.
Qed.

Lemma copyFile_same_path_witness :
  (copyFile quietHost installed "/usr/local/bin/app" "/usr/local/bin/app").1
    !! "/usr/local/bin/app" = Some {| content := ""; perm := 448 |}.
Proof.
  destruct (copyFile_same_path quietHost installed
              (copyFile quietHost installed "/usr/local/bin/app" "/usr/local/bin/app").1
              "/usr/local/bin/app")
    as (f & Hf & ->).
  - vm_compute. reflexivity.
  - vm_compute in Hf. injection Hf as <-. apply lookup_insert_eq.
Defined.

(** ** The handoff, written and read back *)

Lemma digits_acc (d : Decimal.uint) (acc : positive) :
  Strconv.digits (NilEmpty.string_of_uint d) (Z.pos acc)
  = Some (Z.pos (Pos.of_uint_acc d acc)).
Proof.
  revert acc.
  induction d as [|d IH|d IH|d IH|d IH|d IH|d IH|d IH|d IH|d IH|d IH]; intros acc;
    [reflexivity | ..];
    cbn [NilEmpty.string_of_uint Strconv.digits Pos.of_uint_acc];
    match goal with
    | |- context [Semver.isDigit ?c] =>
        change (Semver.isDigit c) with true; cbv iota
    end;
    rewrite <- IH; f_equal; vm_compute (Z.of_N _); lia.
Qed.

Lemma digits_zero (d : Decimal.uint) :
  Strconv.digits (NilEmpty.string_of_uint d) 0 = Some (Z.of_N (Pos.of_uint d)).
Proof.
  induction d as [|d IH|d IH|d IH|d IH|d IH|d IH|d IH|d IH|d IH|d IH];
    [reflexivity | exact IH | ..];
    cbn [NilEmpty.string_of_uint Strconv.digits Pos.of_uint];
    match goal with
    | |- context [Semver.isDigit ?c] =>
        change (Semver.isDigit c) with true; cbv iota
    end;
    cbn [Z.of_N]; rewrite <- digits_acc; f_equal.
Qed.

Lemma string_of_uint_head (d : Decimal.uint) :
  d <> Decimal.Nil ->
  exists c s,
    NilEmpty.string_of_uint d = String c s
    /\ Ascii.eqb c "-" = false /\ Ascii.eqb c "+" = false.
Proof. destruct d; [congruence | ..]; intros _; simpl; eauto. Qed.

Lemma string_of_uint_pos (p : positive) :
  NilZero.string_of_uint (Pos.to_uint p) = NilEmpty.string_of_uint (Pos.to_uint p)
  /\ Strconv.digits (NilEmpty.string_of_uint (Pos.to_uint p)) 0 = Some (Z.pos p).
Proof.
  split.
  - pose proof (DecimalPos.Unsigned.to_uint_nonnil p) as Hnil.
    now destruct (Pos.to_uint p).
  - rewrite digits_zero. now rewrite DecimalPos.Unsigned.of_to.
Qed.

(** [strconv.Atoi] reads back what [strconv.Itoa] writes. *)
Lemma Atoi_Itoa (n : Z) :
  Strconv.minInt <= n <= Strconv.maxInt -> Strconv.Atoi (Strconv.Itoa n) = Some n.
Proof.
  intros Hn. unfold Strconv.Itoa. destruct n as [|p|p]; [reflexivity | |].
  - cbn [Z.to_int NilZero.string_of_int].
    destruct (string_of_uint_pos p) as [-> Hd].
    destruct (string_of_uint_head (Pos.to_uint p)
                (DecimalPos.Unsigned.to_uint_nonnil p)) as (c & s & Hs & Hm & Hp).
    unfold Strconv.Atoi. rewrite Hs, Hm, Hp. simpl orb. cbv iota.
    rewrite <- Hs, Hd.
    replace ((Strconv.minInt <=? Z.pos p) && (Z.pos p <=? Strconv.maxInt)) with true;
      [reflexivity |].
    symmetry. apply andb_true_intro. split; apply Z.leb_le; lia.
  - cbn [Z.to_int NilZero.string_of_int].
    destruct (string_of_uint_pos p) as [-> Hd].
    destruct (string_of_uint_head (Pos.to_uint p)
                (DecimalPos.Unsigned.to_uint_nonnil p)) as (c & s & Hs & _ & _).
    unfold Strconv.Atoi. cbn [Ascii.eqb Bool.eqb]. simpl orb. cbv iota.
    rewrite Hs. rewrite <- Hs, Hd.
    change (- Z.pos p) with (Z.neg p).
    replace ((Strconv.minInt <=? Z.neg p) && (Z.neg p <=? Strconv.maxInt)) with true;
      [reflexivity |].
    symmetry. apply andb_true_intro. split; apply Z.leb_le; lia.
Qed.

(** The arguments [ApplyUpdate] starts the staged file with are read back
    by [HandleUpdateMode] in the child as the executable path and the pid
    of the parent; with a non-empty path and a non-zero pid the child goes
    on to wait for that pid and to replace that path. *)
Theorem handoff_round_trip (w w' : World) (st' : State) (config : UpdateConfig) :
  Strconv.minInt <= Getpid w <= Strconv.maxInt ->
  Getpid w <> 0 ->
  ExecutablePath config <> "" ->
  os_Args st' = handoffArgv w config ->
  parseHandoff (drop 2 (os_Args st')) = (ExecutablePath config, Getpid w)
  /\ HandleUpdateMode w' st' = performUpdate w' st' (ExecutablePath config) (Getpid w).
Proof.
  intros Hrange Hpid Hpath Hargs.
  assert (Hparse : parseHandoff ["--original-path=" +:+ ExecutablePath config;
                                 "--pid=" +:+ Strconv.Itoa (Getpid w)]
                   = (ExecutablePath config, Getpid w)).
  { unfold parseHandoff. cbn [fold_left]. rewrite parseArg_pid, (Atoi_Itoa _ Hrange).
    unfold parseArg. now rewrite HasPrefix_app, TrimPrefix_app. }
  split; [rewrite Hargs; exact Hparse |].
  rewrite (HandleUpdateMode_marker w' st' _ _ Hargs), Hparse. simpl.
  destruct (String.eqb_spec (ExecutablePath config) ""); [contradiction |].
  destruct (Z.eqb_spec (Getpid w) 0); [contradiction | reflexivity].
Qed.

Lemma handoff_round_trip_witness :
  HandleUpdateMode quietHost (processState stagedAndInstalled handoffArgs)
  = performUpdate quietHost (processState stagedAndInstalled handoffArgs)
      "/usr/local/bin/app" 4242.
Proof.
  refine (proj2 (handoff_round_trip quietHost quietHost
                   (processState stagedAndInstalled handoffArgs) sampleConfig _ _ _ _)).
  - vm_compute. split; discriminate.
  - discriminate.
  - discriminate.
  - reflexivity.
Defined.

Lemma fold_parseArg_last (args : list string) (p : string) (n : Z) :
  fold_left parseArg args (p, n)
  = (default p (last (pathsOf args)), default n (last (pidsOf args))).
Proof.
  revert p n. induction args as [|arg args IH]; intros p n; [reflexivity |].
  cbn [fold_left]. unfold pathsOf, pidsOf. cbn [omap list_omap]. fold (pathsOf args).
  fold (pidsOf args). unfold parseArg.
  destruct (HasPrefix arg "--original-path=").
  - rewrite IH, last_cons. now destruct (last (pathsOf args)).
  - destruct (HasPrefix arg "--pid="); [|apply IH].
    destruct (Strconv.Atoi _) as [pid|]; [|apply IH].
    rewrite IH, last_cons. now destruct (last (pidsOf args)).
Qed.

(** The handoff is read by key, not by position: the original path is the
    value of the last [--original-path=] argument (empty when there is
    none), the pid the value of the last [--pid=] argument that parses (0
    when there is none); any other argument is ignored. *)
Theorem parseHandoff_last (args : list string) :
  parseHandoff args
  = (default "" (last (pathsOf args)), default 0 (last (pidsOf args))).
Proof. apply fold_parseArg_last. Qed.

(** ** Versions *)

Lemma compareInt_refl (x : string) : Semver.compareInt x x = 0.
Proof. unfold Semver.compareInt. now rewrite String.eqb_refl. Qed.

Lemma Compare_refl (v : string) : Semver.Compare v v = 0.
Proof.
  unfold Semver.Compare. destruct (Semver.parse v) as [pv|]; [|reflexivity].
  rewrite !compareInt_refl. simpl.
  unfold Semver.comparePrerelease. now rewrite String.eqb_refl.
Qed.

(** No version is newer than itself, be it well formed or not, prefixed
    or not. *)
Theorem isNewerVersion_irreflexive (version : string) :
  isNewerVersion version version = false.
Proof. unfold isNewerVersion. now rewrite Compare_refl. Qed.

Lemma withV_idempotent (version : string) : withV (withV version) = withV version.
Proof.
  unfold withV. destruct (HasPrefix version "v") eqn:E; cbn [negb].
  - now rewrite E.
  - now rewrite (HasPrefix_app "v" version).
Qed.

(** The leading "v" is optional on either side: prefixing a version that
    lacks it changes no answer. *)
Theorem isNewerVersion_prefix (current latest : string) :
  isNewerVersion (withV current) latest = isNewerVersion current latest
  /\ isNewerVersion current (withV latest) = isNewerVersion current latest.
Proof. unfold isNewerVersion. now rewrite !withV_idempotent. Qed.

(** ** Matching, once more *)

Lemma firstNamed_split (assets : list GitHubAsset) (expectedName : string)
    (asset : GitHubAsset) :
  firstNamed assets expectedName = Some asset
  <-> exists before after,
        assets = before ++ asset :: after
        /\ Name asset = expectedName
        /\ Forall (fun other => Name other <> expectedName) before.
Proof.
  induction assets as [|a rest IH]; cbn [firstNamed].
  - split; [discriminate |]. intros (before & after & H & _). now destruct before.
  - destruct (String.eqb_spec (Name a) expectedName) as [E | Hne].
    + split.
      * intros [= <-]. exists [], rest. auto.
      * intros (before & after & H & Hn & Hb).
        destruct before as [|b before]; simpl in H; injection H as <- _; [reflexivity |].
        inversion Hb; contradiction.
    + rewrite IH. split; intros (before & after & H & Hn & Hb).
      * exists (a :: before), after. subst rest. auto.
      * destruct before as [|b before]; simpl in H; injection H as <- H.
        -- contradiction.
        -- exists before, after. inversion Hb. auto.
Qed.

(** [findMatchingAsset] succeeds with an asset exactly when that asset is
    the first of the list whose name equals the rendered name, byte for
    byte; names that merely resemble it are passed over. *)
Theorem findMatchingAsset_first (assets : list GitHubAsset)
    (pattern version os arch : string) (asset : GitHubAsset) :
  findMatchingAsset assets pattern version os arch = Ok asset
  <-> exists before after,
        assets = before ++ asset :: after
        /\ Name asset = buildAssetName pattern version os arch
        /\ Forall (fun other => Name other <> buildAssetName pattern version os arch)
             before.
Proof.
  rewrite <- firstNamed_split. unfold findMatchingAsset.
  destruct (firstNamed _ _); split; congruence.
Qed.

(** ** Rendering, once more *)

(** For a pattern laid out as brace-free text and placeholders, and values
    without an opening brace, the rendered name is the pattern with every
    [{version}], [{os}] and [{arch}] filled with the value, and every
    [{ext}] with ".exe" for the os "windows" and with nothing otherwise. *)
Theorem buildAssetName_renders (ps : list piece) (version os arch : string) :
  Forall plainText ps ->
  braceFree version = true -> braceFree os = true -> braceFree arch = true ->
  buildAssetName (flatten ps) version os arch
  = flatten (fill PExt (if String.eqb os "windows" then ".exe" else "")
               (fill PArch arch (fill POs os (fill PVersion version ps)))).
Proof. apply buildAssetName_flatten. Qed.

Lemma buildAssetName_renders_witness :
  buildAssetName "app-{version}-{os}-{arch}{ext}" "v1.2.0" "windows" "arm64"
  = "app-v1.2.0-windows-arm64.exe".
Proof.
  exact (buildAssetName_renders
           [Text "app-"; Hole PVersion; Text "-"; Hole POs; Text "-"; Hole PArch; Hole PExt]
           "v1.2.0" "windows" "arm64"
           ltac:(repeat constructor) eq_refl eq_refl eq_refl).
Defined.

Lemma replace_from_braceFree (k : placeholder) (new s : string) :
  braceFree s = true -> replace_from 0 s (token k) new = s.
Proof.
  induction s as [|c s IH]; intros Hs; [reflexivity |].
  cbn [braceFree] in Hs. apply andb_prop in Hs as [Hc Hs].
  cbn [replace_from]. rewrite (HasPrefix_token_text k c s Hc). now rewrite IH.
Qed.

(** A pattern without an opening brace is used as it stands, whatever the
    version, os and arch. *)
Theorem buildAssetName_plain (pattern version os arch : string) :
  braceFree pattern = true ->
  buildAssetName pattern version os arch = pattern.
Proof.
  intros Hp. unfold buildAssetName.
  change "{version}" with (token PVersion). change "{os}" with (token POs).
  change "{arch}" with (token PArch). change "{ext}" with (token PExt).
  rewrite (ReplaceAll_token pattern), (replace_from_braceFree PVersion _ _ Hp).
  rewrite (ReplaceAll_token pattern), (replace_from_braceFree POs _ _ Hp).
  rewrite (ReplaceAll_token pattern), (replace_from_braceFree PArch _ _ Hp).
  now rewrite (ReplaceAll_token pattern), (replace_from_braceFree PExt _ _ Hp).
Qed.

Lemma buildAssetName_plain_witness :
  buildAssetName "app.tar.gz" "v1.2.0" "{os}" "amd64" = "app.tar.gz".
Proof. apply buildAssetName_plain. reflexivity. Defined.

(** ** Fetching the release *)

(** [fetchLatestRelease] yields a release exactly when the request could be
    built, the answer to the GET of the repository's [releases/latest] URL
    (with the token header only for a non-empty token) has status 200, and
    its body decodes to that release. *)
Theorem fetchLatestRelease_Ok_iff (w : World) (config : UpdateConfig)
    (release : GitHubRelease) :
  fetchLatestRelease w config = Ok release
  <-> NewRequest_err w (url (releaseRequest config)) = None
      /\ exists body,
           client_Do w (releaseRequest config) = Response 200 body
           /\ json_Decode w body = Ok release.
Proof.
  unfold fetchLatestRelease. fold (releaseRequest config). cbn [url releaseRequest].
  destruct (NewRequest_err w _).
  - split; [discriminate | intros [H _]; discriminate H].
  - fold (releaseRequest config).
    destruct (client_Do w (releaseRequest config)) as [e | status body].
    + split; [discriminate | intros (_ & b & H & _); discriminate H].
    + destruct (Z.eqb_spec status 200) as [-> | Hne]; simpl.
      * destruct (json_Decode w body) as [r | e] eqn:EJ.
        -- split.
           ++ intros [= <-]. split; [reflexivity |]. eauto.
           ++ intros (_ & b & [= <-] & Hb). congruence.
        -- split; [discriminate |]. intros (_ & b & [= <-] & Hb). congruence.
      * split; [discriminate |]. intros (_ & b & [= E _] & _). contradiction.
Qed.

(** ** The Windows probe *)



(** ** The whole protocol *)



(** ** The order of versions is one-way *)

Lemma append_String (c : ascii) (s t : string) : String c s +:+ t = String c (s +:+ t).
Proof. reflexivity. Qed.

Lemma append_nil_r (s : string) : s +:+ "" = s.
Proof.
  induction s as [|c s IH]; [reflexivity |]. now rewrite append_String, IH.
Qed.

Lemma append_assoc (a b c : string) : (a +:+ b) +:+ c = a +:+ (b +:+ c).
Proof.
  induction a as [|x a IH]; [reflexivity |]. now rewrite !append_String, IH.
Qed.

Lemma joinDots_snoc (done : list string) (ident : string) :
  joinDots (done ++ [ident]) = dotted done +:+ ident.
Proof.
  induction done as [|d done IH].
  - apply append_nil_r.
  - cbn [app dotted].
    destruct (done ++ [ident])%list as [|x l] eqn:E; [now destruct done |].
    change (joinDots (d :: x :: l)) with (d +:+ String "." (joinDots (x :: l))).
    rewrite IH. now rewrite append_assoc, append_String.
Qed.

Lemma dotted_snoc (done : list string) (ident : string) :
  dotted (done ++ [ident]) = dotted done +:+ ident +:+ ".".
Proof.
  induction done as [|d done IH].
  - reflexivity.
  - cbn [app dotted]. rewrite IH. now rewrite !append_assoc, !append_String.
Qed.

Lemma dotFree_snoc (ident : string) (c : ascii) :
  dotFree ident = true -> Ascii.eqb c "." = false ->
  dotFree (Semver.snoc ident c) = true.
Proof.
  intros Hi Hc. unfold Semver.snoc. induction ident as [|a ident IH].
  - change (dotFree (String c "") = true). cbn [dotFree]. now rewrite Hc.
  - cbn [dotFree] in Hi. apply andb_prop in Hi as [Ha Hi].
    rewrite append_String. cbn [dotFree]. rewrite Ha. simpl. auto.
Qed.

Lemma snoc_nonempty (ident : string) (c : ascii) : Semver.snoc ident c <> "".
Proof. unfold Semver.snoc. now destruct ident. Qed.

(** What [scanPrerelease] accepts is a hyphen and dot-separated
    identifiers. *)
Lemma scanPrerelease_wf (v : string) :
  forall (done : list string) (ident seen t rest : string),
    Forall okIdent done -> dotFree ident = true ->
    seen = String "-" (dotted done +:+ ident) ->
    Semver.scanPrerelease v ident seen = Some (t, rest) ->
    exists idents,
      idents <> [] /\ Forall okIdent idents /\ t = String "-" (joinDots idents).
Proof.
  assert (Hend : forall (done : list string) (ident seen t rest0 rest : string),
            Forall okIdent done -> dotFree ident = true ->
            seen = String "-" (dotted done +:+ ident) ->
            (if String.eqb ident "" || Semver.isBadNum ident
             then None else Some (seen, rest0)) = Some (t, rest) ->
            exists idents,
              idents <> [] /\ Forall okIdent idents /\ t = String "-" (joinDots idents)).
  { intros done ident seen t rest0 rest Hdone Hident ->.
    destruct (String.eqb_spec ident "") as [-> | Hne]; [discriminate |].
    simpl. destruct (Semver.isBadNum ident); [discriminate |].
    intros [= <- _]. exists (done ++ [ident]).
    split; [now destruct done |]. split.
    - apply Forall_app. split; [exact Hdone |]. repeat constructor; assumption.
    - now rewrite joinDots_snoc. }
  induction v as [|c v IH]; intros done ident seen t rest Hdone Hident Hseen;
    cbn [Semver.scanPrerelease].
  - intros H. exact (Hend done ident seen t _ rest Hdone Hident Hseen H).
  - destruct (Ascii.eqb c "+");
      [intros H; exact (Hend done ident seen t _ rest Hdone Hident Hseen H) |].
    destruct (negb (Semver.isIdentChar c) && negb (Ascii.eqb c ".")); [discriminate |].
    destruct (Ascii.eqb c ".") eqn:Ec.
    + destruct (String.eqb_spec ident "") as [-> | Hne]; [discriminate |].
      simpl. destruct (Semver.isBadNum ident); [discriminate |].
      apply (IH (done ++ [ident]) "").
      * apply Forall_app. split; [exact Hdone |]. repeat constructor; assumption.
      * reflexivity.
      * apply Ascii.eqb_eq in Ec as ->. subst seen. unfold Semver.snoc.
        rewrite append_String. f_equal.
        rewrite dotted_snoc, append_nil_r. now rewrite !append_assoc.
    + apply (IH done (Semver.snoc ident c)).
      * exact Hdone.
      * now apply dotFree_snoc.
      * subst seen. unfold Semver.snoc. rewrite append_String. f_equal.
        now rewrite append_assoc.
Qed.

Lemma parsePrerelease_wf (v t rest : string) :
  Semver.parsePrerelease v = Some (t, rest) -> wfPrerelease t.
Proof.
  unfold Semver.parsePrerelease. destruct v as [|c v]; [discriminate |].
  destruct (Ascii.eqb c "-"); [|discriminate].
  intros H. right. now apply (scanPrerelease_wf v [] "" "-" t rest).
Qed.

Lemma parse_wf (v : string) (p : Semver.parsed) :
  Semver.parse v = Some p -> wfPrerelease (Semver.prerelease p).
Proof.
  unfold Semver.parse.
  destruct (negb _); [discriminate |].
  destruct (Semver.parseInt _) as [[ma v1]|]; [|discriminate].
  destruct (String.eqb v1 ""); [intros [= <-]; now left |].
  destruct (negb _); [discriminate |].
  destruct (Semver.parseInt _) as [[mi v2]|]; [|discriminate].
  destruct (String.eqb v2 ""); [intros [= <-]; now left |].
  destruct (negb _); [discriminate |].
  destruct (Semver.parseInt _) as [[pa v3]|]; [|discriminate].
  unfold Semver.parseSuffix.
  destruct (Semver.startsWith "-" v3).
  - destruct (Semver.parsePrerelease v3) as [[pre v4]|] eqn:EP; [|discriminate].
    apply parsePrerelease_wf in EP.
    destruct (if Semver.startsWith "+" v4 then _ else _) as [[bu v5]|]; [|discriminate].
    destruct (String.eqb v5 ""); [|discriminate]. now intros [= <-].
  - destruct (if Semver.startsWith "+" v3 then _ else _) as [[bu v5]|]; [|discriminate].
    destruct (String.eqb v5 ""); [|discriminate]. intros [= <-]. now left.
Qed.

Lemma length_append (a b : string) :
  String.length (a +:+ b) = (String.length a + String.length b)%nat.
Proof.
  induction a as [|c a IH]; [reflexivity |].
  rewrite append_String. cbn [String.length]. now rewrite IH.
Qed.

Lemma joinDots_length (idents : list string) :
  Forall okIdent idents -> (length idents <= String.length (joinDots idents))%nat.
Proof.
  induction 1 as [|ident rest [Hne _] _ IH]; [reflexivity |].
  cbn [joinDots length]. rewrite length_append.
  assert (1 <= String.length ident)%nat by (destruct ident; [congruence | simpl; lia]).
  destruct rest as [|r rest]; [simpl; lia |].
  cbn [String.length length]. cbn [length] in IH. lia.
Qed.

Lemma nextIdent_ident (ident s : string) :
  dotFree ident = true ->
  s = "" \/ (exists s', s = String "." s') ->
  Semver.nextIdent (ident +:+ s) = (ident, s).
Proof.
  intros Hi Hs. induction ident as [|c ident IH].
  - destruct Hs as [-> | [s' ->]]; reflexivity.
  - cbn [dotFree] in Hi. apply andb_prop in Hi as [Hc Hi].
    rewrite append_String. cbn [Semver.nextIdent].
    apply negb_true_iff in Hc. rewrite Hc. now rewrite (IH Hi).
Qed.

Lemma nextIdent_joinDots (ident : string) (rest : list string) :
  dotFree ident = true ->
  Semver.nextIdent (joinDots (ident :: rest)) = (ident, stage "." rest).
Proof.
  intros Hi. cbn [joinDots].
  destruct rest as [|r rest]; apply nextIdent_ident; try exact Hi; [now left |].
  right. now eexists.
Qed.

(** On staged strings the loop of [comparePrerelease] compares the lists
    of identifiers. *)
Lemma comparePrereleaseLoop_idents (lx : list string) :
  forall (fuel : nat) (ly : list string) (c1 c2 : ascii),
    Forall okIdent lx -> Forall okIdent ly -> (length lx <= fuel)%nat ->
    Semver.comparePrereleaseLoop fuel (stage c1 lx) (stage c2 ly) = compareIdents lx ly.
Proof.
  induction lx as [|dx rx IH]; intros fuel ly c1 c2 Hx Hy Hfuel.
  - now destruct fuel.
  - destruct ly as [|dy ry]; [now destruct fuel |].
    destruct fuel as [|fuel]; [cbn [length] in Hfuel; lia |].
    inversion Hx as [|? ? [_ Hdx] Hrx]; subst.
    inversion Hy as [|? ? [_ Hdy] Hry]; subst.
    cbn [stage Semver.comparePrereleaseLoop].
    rewrite (nextIdent_joinDots dx rx Hdx), (nextIdent_joinDots dy ry Hdy).
    cbn [compareIdents]. destruct (negb (String.eqb dx dy)); [reflexivity |].
    apply IH; try assumption. cbn [length] in Hfuel. lia.
Qed.

Lemma ltb_antisym (x y : string) : x <> y -> String.ltb y x = negb (String.ltb x y).
Proof.
  intros Hne. unfold String.ltb.
  pose proof (String.compare_antisym x y) as Ha.
  destruct (String.compare x y) eqn:E.
  - apply String.compare_eq_iff in E. contradiction.
  - destruct (String.compare y x); simpl in Ha; try discriminate Ha; reflexivity.
  - destruct (String.compare y x); simpl in Ha; try discriminate Ha; reflexivity.
Qed.

Lemma compareIdent_antisym (dx dy : string) :
  dx <> dy -> compareIdent dy dx = - compareIdent dx dy.
Proof.
  intros Hne. unfold compareIdent. rewrite (ltb_antisym dx dy Hne).
  destruct (Semver.isNum dx), (Semver.isNum dy); simpl;
    try reflexivity;
    try (destruct (String.ltb dx dy); reflexivity).
  destruct (Nat.ltb_spec (String.length dx) (String.length dy)),
           (Nat.ltb_spec (String.length dy) (String.length dx));
    try reflexivity; try lia.
  now destruct (String.ltb dx dy).
Qed.

Lemma compareInt_antisym (x y : string) :
  Semver.compareInt y x = - Semver.compareInt x y.
Proof.
  unfold Semver.compareInt. rewrite (String.eqb_sym y x).
  destruct (String.eqb_spec x y) as [-> | Hne]; [reflexivity |].
  rewrite (ltb_antisym x y Hne).
  destruct (Nat.ltb_spec (String.length x) (String.length y)),
           (Nat.ltb_spec (String.length y) (String.length x));
    try reflexivity; try lia.
  now destruct (String.ltb x y).
Qed.

Lemma compareIdents_antisym (lx : list string) :
  forall ly, lx <> ly -> compareIdents ly lx = - compareIdents lx ly.
Proof.
  induction lx as [|dx rx IH]; intros [|dy ry] Hne; try reflexivity; [congruence |].
  cbn [compareIdents]. rewrite (String.eqb_sym dy dx).
  destruct (String.eqb_spec dx dy) as [-> | Hd]; simpl.
  - apply IH. congruence.
  - now apply compareIdent_antisym.
Qed.

Lemma comparePrerelease_antisym (x y : string) :
  wfPrerelease x -> wfPrerelease y ->
  Semver.comparePrerelease y x = - Semver.comparePrerelease x y.
Proof.
  intros Hx Hy. unfold Semver.comparePrerelease. rewrite (String.eqb_sym y x).
  destruct (String.eqb_spec x y) as [-> | Hne]; [reflexivity |].
  destruct Hx as [-> | (lx & Hlx & Hokx & ->)].
  - destruct y; [congruence | reflexivity].
  - destruct Hy as [-> | (ly & Hly & Hoky & ->)]; [reflexivity |].
    change (String.eqb (String "-" (joinDots lx)) "") with false.
    change (String.eqb (String "-" (joinDots ly)) "") with false. cbv iota.
    assert (Hsx : String "-" (joinDots lx) = stage "-" lx) by (now destruct lx).
    assert (Hsy : String "-" (joinDots ly) = stage "-" ly) by (now destruct ly).
    pose proof (joinDots_length lx Hokx) as Hfx.
    pose proof (joinDots_length ly Hoky) as Hfy.
    cbn [String.length]. rewrite Hsx, Hsy.
    rewrite (comparePrereleaseLoop_idents ly _ lx "-" "-" Hoky Hokx) by lia.
    rewrite (comparePrereleaseLoop_idents lx _ ly "-" "-" Hokx Hoky) by lia.
    apply compareIdents_antisym. congruence.
Qed.

Lemma Compare_antisym (v w : string) : Semver.Compare w v = - Semver.Compare v w.
Proof.
  unfold Semver.Compare.
  destruct (Semver.parse v) as [pv|] eqn:Ev, (Semver.parse w) as [pw|] eqn:Ew;
    try reflexivity.
  apply parse_wf in Ev, Ew.
  rewrite (compareInt_antisym (Semver.major pv)), (compareInt_antisym (Semver.minor pv)),
    (compareInt_antisym (Semver.patch pv)),
    (comparePrerelease_antisym (Semver.prerelease pv) _ Ev Ew).
  destruct (Z.eqb_spec (Semver.compareInt (Semver.major pv) (Semver.major pw)) 0) as [-> | H1];
    [|destruct (Z.eqb_spec (- Semver.compareInt (Semver.major pv) (Semver.major pw)) 0);
      [lia | reflexivity]].
  simpl.
  destruct (Z.eqb_spec (Semver.compareInt (Semver.minor pv) (Semver.minor pw)) 0) as [-> | H2];
    [|destruct (Z.eqb_spec (- Semver.compareInt (Semver.minor pv) (Semver.minor pw)) 0);
      [lia | reflexivity]].
  simpl.
  destruct (Z.eqb_spec (Semver.compareInt (Semver.patch pv) (Semver.patch pw)) 0) as [-> | H3];
    [|destruct (Z.eqb_spec (- Semver.compareInt (Semver.patch pv) (Semver.patch pw)) 0);
      [lia | reflexivity]].
  reflexivity.
Qed.

(** The comparison is one-way, for all strings: when the latest version is
    newer than the current one, the current one is not newer than the
    latest, so an update that has been applied is not offered back. *)
Theorem isNewerVersion_asymmetric (current latest : string) :
  isNewerVersion current latest = true -> isNewerVersion latest current = false.
Proof.
  unfold isNewerVersion. rewrite (Compare_antisym (withV latest) (withV current)).
  intros H. apply Z.ltb_lt in H. apply Z.ltb_ge. lia.
Qed.

Lemma isNewerVersion_asymmetric_witness :
  isNewerVersion "v1.2.0" "1.0.0-rc.1" = false.
Proof. apply isNewerVersion_asymmetric. reflexivity. Defined.

(** ** A download that is refused *)

(** When the asset request is not answered with status 200 (a transport
    error or any other status), [downloadAsset] fails without creating or
    truncating the destination: an artifact staged earlier is still there,
    untouched. *)
Theorem downloadAsset_refused (w : World) (m : FS) (url destPath token : string) :
  (forall body, client_Do w (assetRequest url token) <> Response 200 body) ->
  exists e, downloadAsset w m url destPath token = (m, Some e).
Proof.
  intros Hno. unfold downloadAsset.
  destruct (os_MkdirAll _ _); [eauto |].
  destruct (NewRequest_err _ _); [eauto |].
  destruct (client_Do _ _) as [e | status body] eqn:ED; [eauto |].
  destruct (Z.eqb_spec status 200) as [-> | Hne]; simpl; [|eauto].
  now destruct (Hno body).
Qed.

Lemma downloadAsset_refused_witness :
  exists e,
    downloadAsset goneHost stagedAndInstalled
      "https://example.invalid/app-v1.2.0-linux-amd64" "/home/u/.cache/app/update" ""
    = (stagedAndInstalled, Some e).
Proof. apply downloadAsset_refused. intros body. discriminate. Defined.

(** ** Sample evaluations *)

Example buildAssetName_linux :
  buildAssetName "app-{version}-{os}-{arch}{ext}" "v1.2.0" "linux" "amd64"
  = "app-v1.2.0-linux-amd64".
Proof. reflexivity. Qed.

Example buildAssetName_windows :
  buildAssetName "app-{version}-{os}-{arch}{ext}" "v1.2.0" "windows" "amd64"
  = "app-v1.2.0-windows-amd64.exe".
Proof. reflexivity. Qed.

Example buildAssetName_nested :
  buildAssetName "{version}{os}{arch}{ar{ext}ch}" "v1.2.0" "linux" "amd64"
  = "v1.2.0linuxamd64{arch}".
Proof. reflexivity. Qed.

Example newer_1 : isNewerVersion "v1.0.0" "v1.2.0" = true.
Proof. reflexivity. Qed.

Example newer_2 : isNewerVersion "1.0.0" "v1.0.0" = false.
Proof. reflexivity. Qed.

Example newer_3 : isNewerVersion "v1.0.0" "1.0.1-rc.1+b5" = true.
Proof. reflexivity. Qed.

Example newer_4 : isNewerVersion "v1.0.1" "1.0.1-rc.1" = false.
Proof. reflexivity. Qed.

Example newer_5 : isNewerVersion "v1.0.1-rc.2" "1.0.1-rc.10" = true.
Proof. reflexivity. Qed.

Example newer_6 : isNewerVersion "v1.0.0" "latest" = false.
Proof. reflexivity. Qed.

Example newer_7 : isNewerVersion "dev" "v1.0.0" = true.
Proof. reflexivity. Qed.

Example newer_8 : isNewerVersion "v1.9.0" "v1.10" = true.
Proof. reflexivity. Qed.

Example newer_9 : isNewerVersion "v1.0.0" "v01.2.0" = false.
Proof. reflexivity. Qed.

Example Atoi_1 : Strconv.Atoi "4242" = Some 4242.
Proof. reflexivity. Qed.

Example Atoi_2 : Strconv.Atoi "-17" = Some (-17).
Proof. reflexivity. Qed.

Example Atoi_3 : Strconv.Atoi "+0" = Some 0.
Proof. reflexivity. Qed.

Example Atoi_4 : Strconv.Atoi "12a" = None.
Proof. reflexivity. Qed.

Example Atoi_5 : Strconv.Atoi "-" = None.
Proof. reflexivity. Qed.

Example Atoi_6 : Strconv.Atoi "9223372036854775808" = None.
Proof. reflexivity. Qed.

Example Atoi_7 : Strconv.Atoi "-9223372036854775808" = Some (-9223372036854775808).
Proof. reflexivity. Qed.

Example Atoi_8 : Strconv.Atoi " 7" = None.
Proof. reflexivity. Qed.

Example Itoa_1 : Strconv.Itoa 4242 = "4242".
Proof. reflexivity. Qed.

Example Itoa_2 : Strconv.Itoa (-3) = "-3".
Proof. reflexivity. Qed.

Example Itoa_3 : Strconv.Itoa 0 = "0".
Proof. reflexivity. Qed.
